(** * Auto-delivery engine of xianyu-backend: rule matching, stock pops,
      order-id extraction and payment-phrase detection.

    Sources embedded here:
    - [db_manager.py]: [get_delivery_rules_by_keyword],
      [get_delivery_rules_by_keyword_and_spec], [_parse_delivery_rules_rows],
      [consume_batch_data], [increment_delivery_times];
    - [models.py]: the [cards] and [delivery_rules] tables;
    - [tests/test_auto_delivery_fixes.py]: [_is_auto_delivery_trigger],
      [_extract_order_id], [_detect_payment] (the copies of the classifier
      that live in the repository's test module).

    Python [str] values are sequences of Unicode code points; they are
    modelled as [list N].  SQL is read in the dialect of the default
    engine of [database.py] (SQLite): [LIKE] folds ASCII case and has no
    escape character, [LENGTH] counts characters, [/] on integers
    truncates, NULL sorts first.  Exceptions are values of [result]; what
    the database driver, [json.loads] and [str] do is a parameter of the
    functions that call them. *)

From Stdlib Require Import ZArith NArith List Bool Lia.
From stdpp Require Import base decidable option list sorting numbers gmap.

Open Scope Z_scope.

(** ** Strings *)

Definition ustring := list N.

(** [p in s] for Python strings with [p] a prefix test. *)
Fixpoint starts_with (p s : ustring) : bool :=
  match p, s with
  | [], _ => true
  | _ :: _, [] => false
  | a :: p', b :: s' => N.eqb a b && starts_with p' s'
  end.

(** Python's [needle in haystack] on [str]. *)
Fixpoint str_contains (needle hay : ustring) : bool :=
  starts_with needle hay
  || match hay with
     | [] => false
     | _ :: hay' => str_contains needle hay'
     end.

(** Python's [str.isspace] on one code point ([Py_UNICODE_ISSPACE]); the
    same predicate is the regex class [\s] on [str] patterns. *)
Definition py_isspace (c : N) : bool :=
  ((9 <=? c) && (c <=? 13) || (28 <=? c) && (c <=? 32)
   || (c =? 133) || (c =? 160) || (c =? 5760)
   || (8192 <=? c) && (c <=? 8202)
   || (c =? 8232) || (c =? 8233) || (c =? 8239) || (c =? 8287)
   || (c =? 12288))%N.

(** First code point of every run of ten decimal digits (general category
    Nd, Unicode 14 as shipped with CPython 3.11); U+1D7CE starts five
    consecutive runs. *)
Definition nd_zero_points : list N :=
  [48; 1632; 1776; 1984; 2406; 2534; 2662; 2790; 2918; 3046; 3174; 3302;
   3430; 3558; 3664; 3792; 3872; 4160; 4240; 6112; 6160; 6470; 6608; 6784;
   6800; 6992; 7088; 7232; 7248; 42528; 43216; 43264; 43472; 43504; 43600;
   44016; 65296; 66720; 68912; 69734; 69872; 69942; 70096; 70384; 70736;
   70864; 71248; 71360; 71472; 71904; 72016; 72784; 73040; 73120; 92768;
   92864; 93008; 120782; 120792; 120802; 120812; 120822; 123200; 123632;
   125264; 130032]%N.

(** The regex class [\d] on [str] patterns ([Py_UNICODE_ISDECIMAL]). *)
Definition py_isdecimal (c : N) : bool :=
  existsb (fun z => (z <=? c) && (c <? z + 10))%N nd_zero_points.

(** ** SQL scalars *)

(** A nullable column; [None] is SQL NULL. *)
Definition nullable (A : Type) := option A.

(** Three-valued logic of WHERE clauses. *)
Definition sqlbool := option bool.

Definition sql_and (a b : sqlbool) : sqlbool :=
  match a, b with
  | Some false, _ | _, Some false => Some false
  | Some true, Some true => Some true
  | _, _ => None
  end.

Definition sql_or (a b : sqlbool) : sqlbool :=
  match a, b with
  | Some true, _ | _, Some true => Some true
  | Some false, Some false => Some false
  | _, _ => None
  end.

Definition sql_eq_bool (a : nullable bool) (b : bool) : sqlbool :=
  match a with
  | Some x => Some (Bool.eqb x b)
  | None => None
  end.

Definition ustring_eqb (a b : ustring) : bool := bool_decide (a = b).



(** A row passes WHERE exactly when the condition is true (not NULL). *)
Definition sql_holds (b : sqlbool) : bool :=
  match b with
  | Some true => true
  | _ => false
  end.

(** SQLite folds the 26 ASCII letters when LIKE compares characters. *)
Definition ascii_fold (c : N) : N :=
  if ((65 <=? c) && (c <=? 90))%N then (c + 32)%N else c.

Definition pct : N := 37.
Definition underscore : N := 95.

(** [like_from pat s]: the text [s] matches the LIKE pattern [pat], where
    [%] stands for any sequence and [_] for any single character. *)
Fixpoint like_from (pat : ustring) : ustring -> bool :=
  match pat with
  | [] => fun s => match s with [] => true | _ :: _ => false end
  | c :: pat' =>
      if (c =? pct)%N then
        fix any_suffix (s : ustring) : bool :=
          like_from pat' s
          || match s with
             | [] => false
             | _ :: s' => any_suffix s'
             end
      else
        fun s =>
          match s with
          | [] => false
          | x :: s' =>
              ((c =? underscore) || (ascii_fold c =? ascii_fold x))%N
              && like_from pat' s'
          end
  end.

(** [x LIKE pat]. *)
Definition sql_like (x pat : ustring) : bool := like_from pat x.

(** ['%' || k || '%']. *)
Definition wrap_pct (k : ustring) : ustring := pct :: k ++ [pct].

(** [LENGTH(x)] of a text value: its number of characters. *)
Definition sql_length (x : ustring) : Z := Z.of_nat (length x).

(** ** Tables ([models.py]) *)

Module DeliveryRule.
Record t := mk {
  id : Z;
  keyword : ustring;
  card_id : Z;
  delivery_count : nullable Z;
  enabled : nullable bool;
  description : nullable ustring;
  delivery_times : nullable Z;
  user_id : nullable Z;
  created_at : nullable Z;
  updated_at : nullable Z
}.
End DeliveryRule.

Module Card.
Record t := mk {
  id : Z;
  name : ustring;
  type : ustring;
  api_config : nullable ustring;
  text_content : nullable ustring;
  data_content : nullable ustring;
  image_url : nullable ustring;
  description : nullable ustring;
  enabled : nullable bool;
  delay_seconds : nullable Z;
  is_multi_spec : nullable bool;
  spec_name : nullable ustring;
  spec_value : nullable ustring;
  user_id : Z;
  created_at : nullable Z;
  updated_at : nullable Z
}.
End Card.

Record database := mk_database {
  delivery_rules : list DeliveryRule.t;
  cards : list Card.t
}.

(** A joined row of [delivery_rules dr LEFT JOIN cards c]. *)
Definition joined := (DeliveryRule.t * option Card.t)%type.

Definition card_col {A} (f : Card.t -> nullable A) (c : option Card.t) : nullable A :=
  match c with
  | Some c => f c
  | None => None
  end.

(** [FROM delivery_rules dr LEFT JOIN cards c ON dr.card_id = c.id]. *)
Definition left_join_cards (db : database) : list joined :=
  flat_map
    (fun dr =>
       match List.filter (fun c => Card.id c =? DeliveryRule.card_id dr) (cards db) with
       | [] => [(dr, None)]
       | cs => map (fun c => (dr, Some c)) cs
       end)
    (delivery_rules db).

(** [:kw LIKE '%' || dr.keyword || '%']. *)
Definition kw_like_keyword (kw keyword : ustring) : bool :=
  sql_like kw (wrap_pct keyword).

(** [dr.keyword LIKE '%' || :kw || '%']. *)
Definition keyword_like_kw (kw keyword : ustring) : bool :=
  sql_like keyword (wrap_pct kw).

(** [dr.enabled = true AND c.enabled = true AND (... LIKE ... OR ... LIKE ...)]. *)
Definition where_enabled_and_like (kw : ustring) (r : joined) : sqlbool :=
  sql_and
    (sql_and (sql_eq_bool (DeliveryRule.enabled (fst r)) true)
             (sql_eq_bool (card_col Card.enabled (snd r)) true))
    (sql_or (Some (kw_like_keyword kw (DeliveryRule.keyword (fst r))))
            (Some (keyword_like_kw kw (DeliveryRule.keyword (fst r))))).

(** The ORDER BY key
    [CASE WHEN :kw LIKE '%' || dr.keyword || '%' THEN LENGTH(dr.keyword)
          ELSE LENGTH(dr.keyword) / 2 END]; [/] on integers truncates. *)
Definition rank_score (kw keyword : ustring) : Z :=
  if kw_like_keyword kw keyword
  then sql_length keyword
  else Z.quot (sql_length keyword) 2.

Definition row_score (kw : ustring) (r : joined) : Z :=
  rank_score kw (DeliveryRule.keyword (fst r)).

(** NULL sorts before every value in ascending order. *)
Definition null_first_le (a b : nullable Z) : Prop :=
  match a, b with
  | None, _ => True
  | Some _, None => False
  | Some x, Some y => x <= y
  end.

#[global] Instance null_first_le_dec a b : Decision (null_first_le a b).
Proof. destruct a, b; simpl; apply _. Defined.

(** [ORDER BY score DESC, dr.id ASC]. *)
Definition by_score_then_id (kw : ustring) (r1 r2 : joined) : Prop :=
  row_score kw r2 < row_score kw r1
  \/ (row_score kw r1 = row_score kw r2
      /\ DeliveryRule.id (fst r1) <= DeliveryRule.id (fst r2)).

(** [ORDER BY score DESC, dr.delivery_times ASC]. *)
Definition by_score_then_times (kw : ustring) (r1 r2 : joined) : Prop :=
  row_score kw r2 < row_score kw r1
  \/ (row_score kw r1 = row_score kw r2
      /\ null_first_le (DeliveryRule.delivery_times (fst r1))
                       (DeliveryRule.delivery_times (fst r2))).

#[global] Instance by_score_then_id_dec kw r1 r2 : Decision (by_score_then_id kw r1 r2).
Proof. unfold by_score_then_id; apply _. Defined.

#[global] Instance by_score_then_times_dec kw r1 r2 : Decision (by_score_then_times kw r1 r2).
Proof. unfold by_score_then_times; apply _. Defined.

(** ** Python values and exceptions *)

Inductive exn :=
| JSONDecodeError
| TypeError
| AttributeError
| DatabaseError
| OtherException.

Inductive result (A : Type) :=
| Ok (a : A)
| Raise (e : exn).
Arguments Ok {A} a.
Arguments Raise {A} e.

Definition bind {A B} (m : result A) (k : A -> result B) : result B :=
  match m with
  | Ok a => k a
  | Raise e => Raise e
  end.

Notation "'let!' x ':=' m 'in' k" := (bind m (fun x => k))
  (at level 10, x name, m at level 100, k at level 200).

(** [try: body / except Exception: handler]. *)
Definition try_except {A} (body : result A) (handler : exn -> result A) : result A :=
  match body with
  | Ok a => Ok a
  | Raise e => handler e
  end.

(** [try: body / except (json.JSONDecodeError, TypeError): handler]. *)
Definition try_except_json {A} (body : result A) (handler : result A) : result A :=
  match body with
  | Raise JSONDecodeError | Raise TypeError => handler
  | other => other
  end.

Fixpoint for_each {A B} (f : A -> result B) (l : list A) : result (list B) :=
  match l with
  | [] => Ok []
  | a :: l' => let! b := f a in let! bs := for_each f l' in Ok (b :: bs)
  end.

(** Keys of the dicts that occur in events and in decoded JSON. *)
Inductive pykey :=
| KeyStr (s : ustring)
| KeyInt (z : Z).

#[global] Instance pykey_eq_dec : EqDecision pykey.
Proof. solve_decision. Defined.

(** An inbound event: an untyped tree of maps, lists and scalars. *)
#[local] Unset Elimination Schemes.
Inductive pyvalue :=
| PyNone
| PyBool (b : bool)
| PyInt (z : Z)
| PyStr (s : ustring)
| PyList (items : list pyvalue)
| PyDict (items : list (pykey * pyvalue)).
#[local] Set Elimination Schemes.

(** Truth value of an object, as [if x:] tests it. *)
Definition py_truthy (v : pyvalue) : bool :=
  match v with
  | PyNone => false
  | PyBool b => b
  | PyInt z => negb (z =? 0)
  | PyStr s => match s with [] => false | _ :: _ => true end
  | PyList l => match l with [] => false | _ :: _ => true end
  | PyDict d => match d with [] => false | _ :: _ => true end
  end.

(** [isinstance(v, dict)]. *)
Definition isinstance_dict (v : pyvalue) : bool :=
  match v with
  | PyDict _ => true
  | _ => false
  end.

Fixpoint assoc_get (k : pykey) (items : list (pykey * pyvalue)) : option pyvalue :=
  match items with
  | [] => None
  | (k', v) :: items' => if bool_decide (k' = k) then Some v else assoc_get k items'
  end.

(** [v.get(key, default)]; only dicts have the method. *)
Definition py_get (v : pyvalue) (key : ustring) (dflt : pyvalue) : result pyvalue :=
  match v with
  | PyDict items => Ok (default dflt (assoc_get (KeyStr key) items))
  | _ => Raise AttributeError
  end.

(** [session.execute(sql, params).fetchall()]: [fault] is the exception the
    driver raises for this statement, if any. *)
Definition session_execute {A} (fault : option exn) (query : database -> A)
    (db : database) : result A :=
  match fault with
  | Some e => Raise e
  | None => Ok (query db)
  end.

(** ** The dict built for every matched rule *)

Module RuleDict.
Record t := mk {
  id : Z;
  keyword : ustring;
  card_id : Z;
  delivery_count : nullable Z;
  enabled : bool;
  description : nullable ustring;
  delivery_times : nullable Z;
  card_name : nullable ustring;
  card_type : nullable ustring;
  (** the stored text, or what [json.loads] made of it *)
  api_config : pyvalue;
  text_content : nullable ustring;
  data_content : nullable ustring;
  (** the key ['image_url'] only exists in the plain keyword query *)
  image_url : option (nullable ustring);
  card_enabled : bool;
  card_description : nullable ustring;
  card_delay_seconds : Z;
  is_multi_spec : bool;
  spec_name : nullable ustring;
  spec_value : nullable ustring
}.
End RuleDict.

(** [bool(x)] of a nullable boolean column. *)
Definition py_bool (x : nullable bool) : bool := default false x.

(** [x or 0] of a nullable integer column. *)
Definition or_zero (x : nullable Z) : Z := default 0 x.

(** [bool(row[i]) if row[i] is not None else False]. *)
Definition bool_if_not_none (x : nullable bool) : bool :=
  match x with
  | Some b => b
  | None => false
  end.

(** Truth value of an optional [str] argument ([None] and [''] are false). *)
Definition truthy (s : option ustring) : bool :=
  match s with
  | Some (_ :: _) => true
  | _ => false
  end.

(** [ORDER BY] sorts the rows that pass [WHERE]. *)
Definition select_where_order_by (cond : joined -> sqlbool) (order : relation joined)
    `{!forall x y, Decision (order x y)} (db : database) : list joined :=
  merge_sort order (List.filter (fun r => sql_holds (cond r)) (left_join_cards db)).



(** The SELECT of [get_delivery_rules_by_keyword]. *)
Definition keyword_query (kw : ustring) : database -> list joined :=
  select_where_order_by (where_enabled_and_like kw) (by_score_then_id kw).



Section Matcher.
(** [json.loads], with the exception it raises on what it rejects. *)
Variable json_loads : pyvalue -> result pyvalue.

(** The [api_config] handling shared by both row loops. *)
Definition load_api_config (raw : nullable ustring) : result pyvalue :=
  match raw with
  | None => Ok PyNone
  | Some s =>
      if py_truthy (PyStr s)
      then try_except_json (json_loads (PyStr s)) (Ok (PyStr s))
      else Ok (PyStr s)
  end.

(** One iteration of the row loop of [get_delivery_rules_by_keyword]. *)
Definition keyword_row (r : joined) : result RuleDict.t :=
  let (dr, c) := r in
  let! api := load_api_config (card_col Card.api_config c) in
  Ok (RuleDict.mk
        (DeliveryRule.id dr) (DeliveryRule.keyword dr) (DeliveryRule.card_id dr)
        (DeliveryRule.delivery_count dr) (py_bool (DeliveryRule.enabled dr))
        (DeliveryRule.description dr) (DeliveryRule.delivery_times dr)
        (Card.name <$> c) (Card.type <$> c) api
        (card_col Card.text_content c) (card_col Card.data_content c)
        (Some (card_col Card.image_url c))
        (py_bool (card_col Card.enabled c))
        (card_col Card.description c)
        (or_zero (card_col Card.delay_seconds c))
        (bool_if_not_none (card_col Card.is_multi_spec c))
        (card_col Card.spec_name c) (card_col Card.spec_value c)).

Definition get_delivery_rules_by_keyword (fault : option exn) (db : database)
    (keyword : ustring) : result (list RuleDict.t) :=
  try_except
    (let! rows := session_execute fault (keyword_query keyword) db in
     for_each keyword_row rows)
    (fun _ => Ok []).





End Matcher.

(** ** Stock consumption ([consume_batch_data]) *)

Definition newline : N := 10.

(** [s.split('\n')]: always at least one piece. *)
Fixpoint split_newline (s : ustring) : list ustring :=
  match s with
  | [] => [[]]
  | c :: s' =>
      if (c =? newline)%N then [] :: split_newline s'
      else match split_newline s' with
           | [] => [[c]]
           | piece :: pieces => (c :: piece) :: pieces
           end
  end.

Fixpoint lstrip (s : ustring) : ustring :=
  match s with
  | [] => []
  | c :: s' => if py_isspace c then lstrip s' else s
  end.

(** [s.strip()]. *)
Definition py_strip (s : ustring) : ustring :=
  rev (lstrip (rev (lstrip s))).

(** ['\n'.join(lines)]. *)
Fixpoint join_newline (lines : list ustring) : ustring :=
  match lines with
  | [] => []
  | [l] => l
  | l :: ls => l ++ newline :: join_newline ls
  end.

(** [[line.strip() for line in content.split('\n') if line.strip()]]. *)
Definition stock_lines (content : ustring) : list ustring :=
  List.filter (fun l => py_truthy (PyStr l)) (map py_strip (split_newline content)).

Definition str_data : ustring := [100; 97; 116; 97]%N.

(** [session.query(Card).filter_by(id=card_id, type='data').first()]. *)
Definition first_data_card (card_id : Z) (db : database) : option Card.t :=
  List.find (fun c => (Card.id c =? card_id) && ustring_eqb (Card.type c) str_data)
            (cards db).

(** The UPDATE flushed for a card whose [data_content] was assigned: the
    new content, and [updated_at] through the column's [onupdate=func.now()]. *)
Definition set_data_content (content : ustring) (now : Z) (c : Card.t) : Card.t :=
  Card.mk (Card.id c) (Card.name c) (Card.type c) (Card.api_config c)
          (Card.text_content c) (Some content) (Card.image_url c)
          (Card.description c) (Card.enabled c) (Card.delay_seconds c)
          (Card.is_multi_spec c) (Card.spec_name c) (Card.spec_value c)
          (Card.user_id c) (Card.created_at c) (Some now).

Definition update_card (pk : Z) (f : Card.t -> Card.t) (db : database) : database :=
  mk_database (delivery_rules db)
              (map (fun c => if Card.id c =? pk then f c else c) (cards db)).

(** [session.commit()]. *)
Definition session_commit (fault : option exn) : result unit :=
  match fault with
  | Some e => Raise e
  | None => Ok tt
  end.

(** [now] is the database clock at the UPDATE.  The result pairs the
    database after the call with the returned value. *)
Definition consume_batch_data (query_fault commit_fault : option exn) (now : Z)
    (db : database) (card_id : Z) : database * option ustring :=
  let body :=
    let! card := session_execute query_fault (first_data_card card_id) db in
    match card with
    | None => Ok (db, None)
    | Some card =>
        match Card.data_content card with
        | None | Some [] => Ok (db, None)
        | Some content =>
            match stock_lines content with
            | [] => Ok (db, None)
            | first_line :: remaining_lines =>
                let db' :=
                  update_card (Card.id card)
                    (set_data_content (join_newline remaining_lines) now) db in
                let! _ := session_commit commit_fault in
                Ok (db', Some first_line)
            end
        end
    end in
  match body with
  | Ok r => r
  | Raise _ => (db, None)   (* session.rollback(); return None *)
  end.

(** ** The delivery counter ([increment_delivery_times]) *)

Definition bump_delivery_times (now : Z) (dr : DeliveryRule.t) : DeliveryRule.t :=
  DeliveryRule.mk (DeliveryRule.id dr) (DeliveryRule.keyword dr)
    (DeliveryRule.card_id dr) (DeliveryRule.delivery_count dr)
    (DeliveryRule.enabled dr) (DeliveryRule.description dr)
    (Some (or_zero (DeliveryRule.delivery_times dr) + 1))
    (DeliveryRule.user_id dr) (DeliveryRule.created_at dr) (Some now).

Definition increment_delivery_times (query_fault commit_fault : option exn)
    (now : Z) (db : database) (rule_id : Z) : database :=
  let body :=
    let! rule := session_execute query_fault
                   (fun db => List.find (fun dr => DeliveryRule.id dr =? rule_id)
                                        (delivery_rules db)) db in
    match rule with
    | Some rule =>
        let db' :=
          mk_database
            (map (fun dr => if DeliveryRule.id dr =? DeliveryRule.id rule
                            then bump_delivery_times now dr else dr)
                 (delivery_rules db))
            (cards db) in
        let! _ := session_commit commit_fault in
        Ok db'
    | None => Ok db
    end in
  match body with
  | Ok db' => db'
  | Raise _ => db
  end.

(** ** Regular expressions of the classifier

    The patterns of [_extract_order_id] are sequences of one-character
    classes under a greedy repetition, one of them inside the capture
    group. *)

Inductive cclass :=
| CLit (c : N)            (* a literal character *)
| CSet (cs : list N)      (* [...] *)
| CDigit                  (* \d *)
| CSpace.                 (* \s *)

Definition in_class (k : cclass) (c : N) : bool :=
  match k with
  | CLit x => (x =? c)%N
  | CSet cs => existsb (N.eqb c) cs
  | CDigit => py_isdecimal c
  | CSpace => py_isspace c
  end.

Record atom := mk_atom {
  cls : cclass;
  rmin : nat;               (* least number of repetitions *)
  rmax : option nat;        (* greatest number; [None] is unbounded *)
  captured : bool           (* inside group 1 *)
}.

Definition regex := list atom.

(** Length of the longest prefix of [s] in class [k], at most [limit]. *)
Fixpoint run_length (k : cclass) (limit : option nat) (s : ustring) : nat :=
  match s with
  | [] => O
  | c :: s' =>
      if in_class k c then
        match limit with
        | Some O => O
        | Some (S n) => S (run_length k (Some n) s')
        | None => S (run_length k None s')
        end
      else O
  end.

(** Tries [f (lo + n)], [f (lo + n - 1)], ..., [f lo]: the greedy
    repetition gives characters back one at a time. *)
Fixpoint try_down {A} (f : nat -> option A) (lo n : nat) : option A :=
  match n with
  | O => f lo
  | S n' =>
      match f (lo + n)%nat with
      | Some r => Some r
      | None => try_down f lo n'
      end
  end.

(** Match [re] at the start of [s]: group 1 and the unread rest. *)
Fixpoint match_here (re : regex) (s : ustring) : option (ustring * ustring) :=
  match re with
  | [] => Some ([], s)
  | a :: re' =>
      let most := run_length (cls a) (rmax a) s in
      if (most <? rmin a)%nat then None
      else
        try_down
          (fun k =>
             match match_here re' (drop k s) with
             | Some (group, rest) =>
                 Some ((if captured a then take k s else []) ++ group, rest)
             | None => None
             end)
          (rmin a) (most - rmin a)
  end.

(** [re.search(re, s)]: group 1 of the leftmost match. *)
Fixpoint re_search (re : regex) (s : ustring) : option ustring :=
  match match_here re s with
  | Some (group, _) => Some group
  | None =>
      match s with
      | [] => None
      | _ :: s' => re_search re s'
      end
  end.

Fixpoint findall_from (fuel : nat) (re : regex) (s : ustring) : list ustring :=
  match fuel with
  | O => []
  | S fuel' =>
      match match_here re s with
      | Some (group, rest) =>
          group ::
          (if (length rest <? length s)%nat then findall_from fuel' re rest
           else match s with
                | [] => []
                | _ :: s' => findall_from fuel' re s'
                end)
      | None =>
          match s with
          | [] => []
          | _ :: s' => findall_from fuel' re s'
          end
      end
  end.

(** [re.findall(re, s)] for a pattern with one group: group 1 of every
    match, left to right, without overlap. *)
Definition re_findall (re : regex) (s : ustring) : list ustring :=
  findall_from (S (length s)) re s.

Definition once (k : cclass) : atom := mk_atom k 1 (Some 1%nat) false.
Definition literal (s : ustring) : regex := map (fun c => once (CLit c)) s.
Definition star (k : cclass) : atom := mk_atom k 0 None false.
Definition opt (k : cclass) : atom := mk_atom k 0 (Some 1%nat) false.
(** [(\d{n,})]. *)
Definition digits_group (n : nat) : atom := mk_atom CDigit n None true.

Definition str_orderId : ustring := [111; 114; 100; 101; 114; 73; 100]%N.
Definition str_order_detail_id_eq : ustring :=
  [111; 114; 100; 101; 114; 95; 100; 101; 116; 97; 105; 108; 63; 105; 100; 61]%N.
Definition str_quoted_id : ustring := [34; 105; 100; 34]%N.
Definition str_bizOrderId : ustring := [98; 105; 122; 79; 114; 100; 101; 114; 73; 100]%N.
Definition ch_eq : N := 61.
Definition ch_colon : N := 58.
Definition ch_dquote : N := 34.

(** [orderId=(\d+)]. *)
Definition re_button_orderId : regex :=
  literal str_orderId ++ [once (CLit ch_eq); digits_group 1].
(** [order_detail\?id=(\d+)]. *)
Definition re_main_order_detail : regex :=
  literal str_order_detail_id_eq ++ [digits_group 1].

(** [orderId[=:](\d{10,})]. *)
Definition re_orderId : regex :=
  literal str_orderId ++ [once (CSet [ch_eq; ch_colon]); digits_group 10].
(** [order_detail\?id=(\d{10,})]. *)
Definition re_order_detail : regex :=
  literal str_order_detail_id_eq ++ [digits_group 10].
(** ["id"\s*:\s*"?(\d{10,})"?]. *)
Definition re_quoted_id : regex :=
  literal str_quoted_id
  ++ [star CSpace; once (CLit ch_colon); star CSpace; opt (CLit ch_dquote);
      digits_group 10; opt (CLit ch_dquote)].
(** [bizOrderId[=:](\d{10,})]. *)
Definition re_bizOrderId : regex :=
  literal str_bizOrderId ++ [once (CSet [ch_eq; ch_colon]); digits_group 10].

(** The list [patterns] of the fallback, in source order. *)
Definition patterns : list regex :=
  [re_orderId; re_order_detail; re_quoted_id; re_bizOrderId].

(** ** Order-id extraction and payment detection
       ([tests/test_auto_delivery_fixes.py]) *)

Definition key_1 : ustring := [49]%N.
Definition key_6 : ustring := [54]%N.
Definition key_3 : ustring := [51]%N.
Definition key_5 : ustring := [53]%N.
Definition key_dxCard : ustring := [100; 120; 67; 97; 114; 100]%N.
Definition key_item : ustring := [105; 116; 101; 109]%N.
Definition key_main : ustring := [109; 97; 105; 110]%N.
Definition key_exContent : ustring := [101; 120; 67; 111; 110; 116; 101; 110; 116]%N.
Definition key_button : ustring := [98; 117; 116; 116; 111; 110]%N.
Definition key_targetUrl : ustring := [116; 97; 114; 103; 101; 116; 85; 114; 108]%N.

Definition empty_dict : pyvalue := PyDict [].
Definition empty_str : pyvalue := PyStr [].

(** [re.search(pattern, v)]: anything but a [str] is a [TypeError]. *)
Definition py_re_search (re : regex) (v : pyvalue) : result (option ustring) :=
  match v with
  | PyStr s => Ok (re_search re s)
  | _ => Raise TypeError
  end.

(** [not order_id] for an optional string. *)
Definition not_order_id (order_id : option ustring) : bool :=
  negb (truthy order_id).

(** The [for pattern in patterns] loop: the first pattern that finds
    anything decides, with its first match. *)
Fixpoint scan_patterns (ps : list regex) (message_str : ustring) : option ustring :=
  match ps with
  | [] => None
  | pattern :: ps' =>
      match re_findall pattern message_str with
      | first_match :: _ => Some first_match
      | [] => scan_patterns ps' message_str
      end
  end.

(** ['[我已付款，等待你发货]'], ['[已付款，待发货]'], ['我已付款，等待你发货'],
    ['[记得及时发货]']. *)
Definition auto_delivery_keywords : list ustring :=
  [ [91; 25105; 24050; 20184; 27454; 65292; 31561; 24453; 20320; 21457; 36135; 93];
    [91; 24050; 20184; 27454; 65292; 24453; 21457; 36135; 93];
    [25105; 24050; 20184; 27454; 65292; 31561; 24453; 20320; 21457; 36135];
    [91; 35760; 24471; 21450; 26102; 21457; 36135; 93] ]%N.

(** ['我已付款'], ['已付款，待发货'], ['等待你发货'], ['TRADE_PAID_DONE_SELLER']. *)
Definition payment_indicators : list ustring :=
  [ [25105; 24050; 20184; 27454];
    [24050; 20184; 27454; 65292; 24453; 21457; 36135];
    [31561; 24453; 20320; 21457; 36135];
    [84; 82; 65; 68; 69; 95; 80; 65; 73; 68; 95; 68; 79; 78; 69; 95; 83; 69;
     76; 76; 69; 82] ]%N.


Definition _is_auto_delivery_trigger (message : ustring) : bool :=
  existsb (fun keyword => str_contains keyword message) auto_delivery_keywords.

Section Classifier.
(** [json.loads] and the builtin [str]. *)
Variable json_loads : pyvalue -> result pyvalue.
Variable py_str : pyvalue -> ustring.

(** The walk down [message['1']['6']['3']['5']]. *)
Definition content_json_str_of (message : pyvalue) : result pyvalue :=
  let! message_1 := py_get message key_1 empty_dict in
  if isinstance_dict message_1 then
    let! message_1_6 := py_get message_1 key_6 empty_dict in
    if isinstance_dict message_1_6 then
      let! message_1_6_3 := py_get message_1_6 key_3 empty_dict in
      if isinstance_dict message_1_6_3
      then py_get message_1_6_3 key_5 empty_str
      else Ok empty_str
    else Ok empty_str
  else Ok empty_str.

(** [content_data.get('dxCard', {}).get('item', {}).get('main', {})]. *)
Definition card_main (content_data : pyvalue) : result pyvalue :=
  let! dx := py_get content_data key_dxCard empty_dict in
  let! item := py_get dx key_item empty_dict in
  py_get item key_main empty_dict.

(** The body of the first inner [try]. *)
Definition from_card_button (content_json_str : pyvalue) : result (option ustring) :=
  let! content_data := json_loads content_json_str in
  let! main := card_main content_data in
  let! ex := py_get main key_exContent empty_dict in
  let! button := py_get ex key_button empty_dict in
  let! target_url := py_get button key_targetUrl empty_str in
  let! order_id :=
    (if py_truthy target_url
     then py_re_search re_button_orderId target_url
     else Ok None) in
  if not_order_id order_id then
    let! main' := card_main content_data in
    let! main_target_url := py_get main' key_targetUrl empty_str in
    if py_truthy main_target_url then
      let! order_match := py_re_search re_main_order_detail main_target_url in
      Ok (match order_match with
          | Some g => Some g
          | None => order_id
          end)
    else Ok order_id
  else Ok order_id.

(** Everything before the flattened fallback; the inner [except
    Exception: pass] leaves [order_id] at [None]. *)
Definition structured_extraction (message : pyvalue) : result (option ustring) :=
  let! content_json_str := content_json_str_of message in
  if py_truthy content_json_str then
    Ok (match from_card_button content_json_str with
        | Ok order_id => order_id
        | Raise _ => None
        end)
  else Ok None.

(** The second inner [try]: scan [str(message)]. *)
Definition regex_fallback (message : pyvalue) : option ustring :=
  scan_patterns patterns (py_str message).

Definition _extract_order_id (message : pyvalue) : result (option ustring) :=
  try_except
    (let! order_id := structured_extraction message in
     if not_order_id order_id then
       Ok (match regex_fallback message with
           | Some g => Some g
           | None => order_id
           end)
     else Ok order_id)
    (fun _ => Ok None).

Definition _detect_payment (message : pyvalue) : bool :=
  existsb (fun kw => str_contains kw (py_str message)) payment_indicators.


End Classifier.

(** ** The fulfilment step *)






Definition str_text : ustring := [116; 101; 120; 116]%N.




(** ** Maintenance of rules and cards ([db_manager.py]) *)

#[global] Instance DeliveryRule_eq_dec : EqDecision DeliveryRule.t.
Proof. solve_decision. Defined.

(** [query.filter_by(user_id=user_id)], added only when [user_id] is given. *)
Definition owned_by (user_id : option Z) (dr : DeliveryRule.t) : bool :=
  match user_id with
  | None => true
  | Some u => bool_decide (DeliveryRule.user_id dr = Some u)
  end.

(** [filter_by(id=rule_id)] with the optional owner filter. *)
Definition rule_selected (rule_id : Z) (user_id : option Z) (dr : DeliveryRule.t) : bool :=
  (DeliveryRule.id dr =? rule_id) && owned_by user_id dr.

(** [if new is not None: column = new] on a nullable column. *)
Definition assigned {A} (new : option A) (old : nullable A) : nullable A :=
  match new with
  | Some v => Some v
  | None => old
  end.

(** The five conditional assignments of [update_delivery_rule]. *)
Definition assign_rule (keyword : option ustring) (card_id delivery_count : option Z)
    (enabled : option bool) (description : option ustring) (dr : DeliveryRule.t)
    : DeliveryRule.t :=
  DeliveryRule.mk (DeliveryRule.id dr)
    (default (DeliveryRule.keyword dr) keyword)
    (default (DeliveryRule.card_id dr) card_id)
    (assigned delivery_count (DeliveryRule.delivery_count dr))
    (assigned enabled (DeliveryRule.enabled dr))
    (assigned description (DeliveryRule.description dr))
    (DeliveryRule.delivery_times dr) (DeliveryRule.user_id dr)
    (DeliveryRule.created_at dr) (DeliveryRule.updated_at dr).

(** [updated_at] through [onupdate=func.now()]. *)
Definition touch_rule (now : Z) (dr : DeliveryRule.t) : DeliveryRule.t :=
  DeliveryRule.mk (DeliveryRule.id dr) (DeliveryRule.keyword dr)
    (DeliveryRule.card_id dr) (DeliveryRule.delivery_count dr)
    (DeliveryRule.enabled dr) (DeliveryRule.description dr)
    (DeliveryRule.delivery_times dr) (DeliveryRule.user_id dr)
    (DeliveryRule.created_at dr) (Some now).

(** Some card has this id: what the foreign key [delivery_rules.card_id ->
    cards.id] asks of a stored rule ([PRAGMA foreign_keys=ON]). *)
Definition card_exists (card_id : Z) (db : database) : bool :=
  existsb (fun c => Card.id c =? card_id) (cards db).

(** The flush of a rule whose attributes were assigned.  Equal values are
    no change, and without a change no UPDATE is sent; otherwise the UPDATE
    sets the columns and [updated_at] of the row with the rule's key, and a
    new [card_id] without a card is an integrity error. *)
Definition flush_rule (now : Z) (rule : DeliveryRule.t)
    (assign : DeliveryRule.t -> DeliveryRule.t) (db : database) : result database :=
  if bool_decide (assign rule = rule) then Ok db
  else if negb (DeliveryRule.card_id (assign rule) =? DeliveryRule.card_id rule)
          && negb (card_exists (DeliveryRule.card_id (assign rule)) db)
  then Raise DatabaseError
  else Ok (mk_database
             (map (fun dr => if DeliveryRule.id dr =? DeliveryRule.id rule
                             then touch_rule now (assign dr) else dr)
                  (delivery_rules db))
             (cards db)).

(** The result pairs the database after the call with what the call
    returns or raises ([except: session.rollback(); raise]). *)
Definition update_delivery_rule (query_fault commit_fault : option exn) (now : Z)
    (db : database) (rule_id : Z) (keyword : option ustring)
    (card_id delivery_count : option Z) (enabled : option bool)
    (description : option ustring) (user_id : option Z) : database * result bool :=
  let body :=
    let! rule := session_execute query_fault
                   (fun db => List.find (rule_selected rule_id user_id)
                                        (delivery_rules db)) db in
    match rule with
    | None => Ok (db, false)
    | Some rule =>
        let! db' := flush_rule now rule
                      (assign_rule keyword card_id delivery_count enabled description)
                      db in
        let! _ := session_commit commit_fault in
        Ok (db', true)
    end in
  match body with
  | Ok (db', r) => (db', Ok r)
  | Raise e => (db, Raise e)
  end.

(** [query.delete()] removes every selected row and counts them. *)
Definition delete_delivery_rule (query_fault commit_fault : option exn)
    (db : database) (rule_id : Z) (user_id : option Z) : database * result bool :=
  let body :=
    let! count := session_execute query_fault
                    (fun db => length (List.filter (rule_selected rule_id user_id)
                                                   (delivery_rules db))) db in
    if (0 <? count)%nat then
      let! _ := session_commit commit_fault in
      Ok (mk_database
            (List.filter (fun dr => negb (rule_selected rule_id user_id dr))
                         (delivery_rules db))
            (cards db), true)
    else Ok (db, false) in
  match body with
  | Ok (db', r) => (db', Ok r)
  | Raise e => (db, Raise e)
  end.

(** [DELETE FROM cards WHERE id = card_id]; the rules of the card go with
    it ([ondelete='CASCADE']). *)
Definition delete_card (query_fault commit_fault : option exn)
    (db : database) (card_id : Z) : database * result bool :=
  let body :=
    let! count := session_execute query_fault
                    (fun db => length (List.filter (fun c => Card.id c =? card_id)
                                                   (cards db))) db in
    if (0 <? count)%nat then
      let! _ := session_commit commit_fault in
      Ok (mk_database
            (List.filter (fun dr => negb (DeliveryRule.card_id dr =? card_id))
                         (delivery_rules db))
            (List.filter (fun c => negb (Card.id c =? card_id)) (cards db)), true)
    else Ok (db, false) in
  match body with
  | Ok (db', r) => (db', Ok r)
  | Raise e => (db, Raise e)
  end.

(** [new_id] is the key the database assigns to the new row; [delivery_times]
    takes its column default, both time stamps are [func.now()]. *)
Definition create_delivery_rule (commit_fault : option exn) (new_id now : Z)
    (db : database) (keyword : ustring) (card_id delivery_count : Z) (enabled : bool)
    (description : option ustring) (user_id : option Z) : database * result Z :=
  let rule :=
    DeliveryRule.mk new_id keyword card_id (Some delivery_count) (Some enabled)
                    description (Some 0) user_id (Some now) (Some now) in
  let body :=
    if existsb (fun dr => DeliveryRule.id dr =? new_id) (delivery_rules db)
       || negb (card_exists card_id db)
    then Raise DatabaseError
    else
      let! _ := session_commit commit_fault in
      Ok (mk_database (delivery_rules db ++ [rule]) (cards db), new_id) in
  match body with
  | Ok (db', r) => (db', Ok r)
  | Raise e => (db, Raise e)
  end.

(** The dict of [get_delivery_rule_by_id]; the two time stamps stand for
    their [str()]. *)
Module RuleInfo.
Record t := mk {
  id : Z;
  keyword : ustring;
  card_id : Z;
  delivery_count : nullable Z;
  enabled : bool;
  description : nullable ustring;
  delivery_times : nullable Z;
  created_at : nullable Z;
  updated_at : nullable Z;
  card_name : nullable ustring;
  card_type : nullable ustring
}.
End RuleInfo.

Definition rule_info (r : joined) : RuleInfo.t :=
  let (dr, c) := r in
  RuleInfo.mk (DeliveryRule.id dr) (DeliveryRule.keyword dr) (DeliveryRule.card_id dr)
    (DeliveryRule.delivery_count dr) (py_bool (DeliveryRule.enabled dr))
    (DeliveryRule.description dr) (DeliveryRule.delivery_times dr)
    (DeliveryRule.created_at dr) (DeliveryRule.updated_at dr)
    (Card.name <$> c) (Card.type <$> c).

Definition get_delivery_rule_by_id (fault : option exn) (db : database)
    (rule_id : Z) (user_id : option Z) : option RuleInfo.t :=
  let body :=
    let! result := session_execute fault
                     (fun db => List.find (fun r => rule_selected rule_id user_id r.1)
                                          (left_join_cards db)) db in
    Ok (rule_info <$> result) in
  match body with
  | Ok r => r
  | Raise _ => None
  end.

(** Every rule points to a stored card. *)
Definition rules_have_cards (db : database) : Prop :=
  forall dr, dr ∈ delivery_rules db -> card_exists (DeliveryRule.card_id dr) db = true.

(** ** Orders ([db_manager.py], [models.py]) *)

Module Order.
Record t := mk {
  order_id : ustring;
  item_id : nullable ustring;
  buyer_id : nullable ustring;
  spec_name : nullable ustring;
  spec_value : nullable ustring;
  quantity : nullable ustring;
  amount : nullable ustring;
  order_status : nullable ustring;
  cookie_id : nullable ustring;
  is_bargain : nullable Z;
  created_at : nullable Z;
  updated_at : nullable Z
}.
End Order.

#[global] Instance Order_eq_dec : EqDecision Order.t.
Proof. solve_decision. Defined.

(** The [orders] table and the keys of the [cookies] table. *)
Record order_tables := mk_order_tables {
  orders : list Order.t;
  cookies : list ustring
}.

Definition execute_on {S A} (fault : option exn) (query : S -> A) (s : S) : result A :=
  match fault with
  | Some e => Raise e
  | None => Ok (query s)
  end.

(** [session.query(CookieAccount).filter_by(id=cookie_id).first()] finds a
    row; also what the foreign key [orders.cookie_id -> cookies.id] asks. *)
Definition cookie_known (cookie_id : nullable ustring) (st : order_tables) : bool :=
  match cookie_id with
  | Some c => bool_decide (c ∈ cookies st)
  | None => true
  end.

(** [session.query(Order).filter_by(order_id=order_id).first()]. *)
Definition first_order (order_id : ustring) (st : order_tables) : option Order.t :=
  List.find (fun o => ustring_eqb (Order.order_id o) order_id) (orders st).

(** [1 if is_bargain else 0]. *)
Definition bargain_flag (is_bargain : option bool) : Z :=
  if py_bool is_bargain then 1 else 0.

Definition str_unknown : ustring := [117; 110; 107; 110; 111; 119; 110]%N.

(** [order_status or 'unknown']. *)
Definition status_or_unknown (order_status : option ustring) : ustring :=
  match order_status with
  | Some (x :: s) => x :: s
  | _ => str_unknown
  end.

(** The nine conditional assignments on an existing order. *)
Definition assign_order (item_id buyer_id spec_name spec_value quantity amount
    order_status cookie_id : option ustring) (is_bargain : option bool) (o : Order.t)
    : Order.t :=
  Order.mk (Order.order_id o)
    (assigned item_id (Order.item_id o))
    (assigned buyer_id (Order.buyer_id o))
    (assigned spec_name (Order.spec_name o))
    (assigned spec_value (Order.spec_value o))
    (assigned quantity (Order.quantity o))
    (assigned amount (Order.amount o))
    (assigned order_status (Order.order_status o))
    (assigned cookie_id (Order.cookie_id o))
    (match is_bargain with
     | Some _ => Some (bargain_flag is_bargain)
     | None => Order.is_bargain o
     end)
    (Order.created_at o) (Order.updated_at o).

Definition touch_order (now : Z) (o : Order.t) : Order.t :=
  Order.mk (Order.order_id o) (Order.item_id o) (Order.buyer_id o)
    (Order.spec_name o) (Order.spec_value o) (Order.quantity o) (Order.amount o)
    (Order.order_status o) (Order.cookie_id o) (Order.is_bargain o)
    (Order.created_at o) (Some now).

(** The flush of an order whose attributes were assigned: no UPDATE without
    a change; a changed [cookie_id] must be a key of [cookies]. *)
Definition flush_order (now : Z) (existing : Order.t) (assign : Order.t -> Order.t)
    (st : order_tables) : result order_tables :=
  if bool_decide (assign existing = existing) then Ok st
  else if negb (bool_decide (Order.cookie_id (assign existing) = Order.cookie_id existing))
          && negb (cookie_known (Order.cookie_id (assign existing)) st)
  then Raise DatabaseError
  else Ok (mk_order_tables
             (map (fun o => if ustring_eqb (Order.order_id o) (Order.order_id existing)
                            then touch_order now (assign o) else o)
                  (orders st))
             (cookies st)).

(** The INSERT of [session.add(order)]. *)
Definition insert_order (order : Order.t) (st : order_tables) : result order_tables :=
  if negb (cookie_known (Order.cookie_id order) st) then Raise DatabaseError
  else Ok (mk_order_tables (orders st ++ [order]) (cookies st)).

(** The result pairs the tables after the call with the returned flag. *)
Definition insert_or_update_order (query_fault commit_fault : option exn) (now : Z)
    (st : order_tables) (order_id : ustring)
    (item_id buyer_id spec_name spec_value quantity amount order_status
     cookie_id : option ustring) (is_bargain : option bool) : order_tables * bool :=
  let body :=
    let! cookie_exists :=
      if truthy cookie_id then execute_on query_fault (cookie_known cookie_id) st
      else Ok true in
    if negb cookie_exists then Ok (st, false)
    else
      let! existing := execute_on query_fault (first_order order_id) st in
      let! st' :=
        match existing with
        | Some existing =>
            flush_order now existing
              (assign_order item_id buyer_id spec_name spec_value quantity amount
                            order_status cookie_id is_bargain) st
        | None =>
            insert_order
              (Order.mk order_id item_id buyer_id spec_name spec_value quantity amount
                        (Some (status_or_unknown order_status)) cookie_id
                        (Some (bargain_flag is_bargain)) (Some now) (Some now)) st
        end in
      let! _ := session_commit commit_fault in
      Ok (st', true) in
  match body with
  | Ok r => r
  | Raise _ => (st, false)
  end.

(** The dict of [get_order_by_id]; the two time stamps stand for their
    [str()]. *)
Module OrderInfo.
Record t := mk {
  id : ustring;
  order_id : ustring;
  item_id : nullable ustring;
  buyer_id : nullable ustring;
  spec_name : nullable ustring;
  spec_value : nullable ustring;
  quantity : nullable ustring;
  amount : nullable ustring;
  status : nullable ustring;
  cookie_id : nullable ustring;
  is_bargain : bool;
  created_at : nullable Z;
  updated_at : nullable Z
}.
End OrderInfo.

(** [bool(o.is_bargain) if o.is_bargain is not None else False]. *)
Definition flag_bool (x : nullable Z) : bool :=
  match x with
  | Some z => negb (z =? 0)
  | None => false
  end.

Definition order_info (o : Order.t) : OrderInfo.t :=
  OrderInfo.mk (Order.order_id o) (Order.order_id o) (Order.item_id o)
    (Order.buyer_id o) (Order.spec_name o) (Order.spec_value o) (Order.quantity o)
    (Order.amount o) (Order.order_status o) (Order.cookie_id o)
    (flag_bool (Order.is_bargain o)) (Order.created_at o) (Order.updated_at o).

Definition get_order_by_id (fault : option exn) (st : order_tables)
    (order_id : ustring) : option OrderInfo.t :=
  match execute_on fault (first_order order_id) st with
  | Ok o => order_info <$> o
  | Raise _ => None
  end.

Definition delete_order (query_fault commit_fault : option exn) (st : order_tables)
    (order_id : ustring) : order_tables * bool :=
  let body :=
    let! count :=
      execute_on query_fault
        (fun st => length (List.filter
                             (fun o => ustring_eqb (Order.order_id o) order_id)
                             (orders st))) st in
    if (0 <? count)%nat then
      let! _ := session_commit commit_fault in
      Ok (mk_order_tables
            (List.filter (fun o => negb (ustring_eqb (Order.order_id o) order_id))
                         (orders st))
            (cookies st), true)
    else Ok (st, false) in
  match body with
  | Ok r => r
  | Raise _ => (st, false)
  end.

(** Every stored order names a stored cookie or none. *)
Definition orders_have_cookies (st : order_tables) : Prop :=
  forall o, o ∈ orders st -> cookie_known (Order.cookie_id o) st = true.

(** ** Auxiliary notions and sample data used by the statements *)

(** What both row loops copy from a joined row into its dict. *)
Definition built_from (r : joined) (d : RuleDict.t) : Prop :=
  RuleDict.id d = DeliveryRule.id r.1
  /\ RuleDict.keyword d = DeliveryRule.keyword r.1
  /\ RuleDict.card_id d = DeliveryRule.card_id r.1
  /\ RuleDict.is_multi_spec d = bool_if_not_none (card_col Card.is_multi_spec r.2)
  /\ RuleDict.spec_name d = card_col Card.spec_name r.2
  /\ RuleDict.spec_value d = card_col Card.spec_value r.2.



(** An enabled rule and an enabled card with the columns the examples vary. *)
Definition sample_rule (id : Z) (keyword : ustring) (card_id : Z) (times : nullable Z)
    : DeliveryRule.t :=
  DeliveryRule.mk id keyword card_id (Some 1) (Some true) None times None None None.

Definition sample_card (id : Z) (type : ustring) (multi : nullable bool)
    (sn sv : nullable ustring) (content : nullable ustring) : Card.t :=
  Card.mk id [99%N] type None None content None None (Some true) (Some 0)
          multi sn sv 1 None None.

Definition str_shoujike : ustring := [25163; 26426; 22771]%N.
Definition str_shouji : ustring := [25163; 26426]%N.
Definition str_you_shoujike_ma : ustring := [26377; 25163; 26426; 22771; 21527]%N.

(** Rules ["手机": card 2] (id 1) and ["手机壳": card 1] (id 2). *)
Definition phone_db : database :=
  mk_database
    [sample_rule 1 str_shouji 2 (Some 0); sample_rule 2 str_shoujike 1 (Some 0)]
    [sample_card 1 str_text None None None None;
     sample_card 2 str_text None None None None].

Definition str_a : ustring := [97]%N.


Definition str_color : ustring := [99; 111; 108; 111; 114]%N.
Definition str_red : ustring := [114; 101; 100]%N.

(** Two rules with the keyword ["a"]: id 1 has delivered five times, id 2
    never; each points to its own multi-spec card of spec (color, red). *)
Definition tie_spec_db : database :=
  mk_database
    [sample_rule 1 str_a 1 (Some 5); sample_rule 2 str_a 2 (Some 0)]
    [sample_card 1 str_text (Some true) (Some str_color) (Some str_red) None;
     sample_card 2 str_text (Some true) (Some str_color) (Some str_red) None].


(** A [json.loads] that rejects every text. *)
Definition no_json : pyvalue -> result pyvalue := fun _ => Raise JSONDecodeError.

(** Least length of group 1. *)
Definition group_min (re : regex) : nat :=
  foldr (fun a n => ((if captured a then rmin a else O) + n)%nat) O re.

(** Every character group 1 can hold satisfies [P]. *)
Definition group_chars (P : N -> bool) (re : regex) : Prop :=
  Forall (fun a => captured a = true -> forall c, in_class (cls a) c = true -> P c = true) re.

(** [within n limit]: [n] repetitions respect the upper bound. *)
Definition within (n : nat) (limit : option nat) : Prop :=
  match limit with
  | Some m => (n <= m)%nat
  | None => True
  end.

(** [re_matches re text group]: the pattern matches exactly [text], with
    [group] as group 1. *)
Inductive re_matches : regex -> ustring -> ustring -> Prop :=
| re_matches_nil : re_matches [] [] []
| re_matches_cons a re chunk text group :
    Forall (fun c => in_class (cls a) c = true) chunk ->
    (rmin a <= length chunk)%nat ->
    within (length chunk) (rmax a) ->
    re_matches re text group ->
    re_matches (a :: re) (chunk ++ text)
               ((if captured a then chunk else []) ++ group).

(** [order_detail?id=1111111111&orderId=2222222222]. *)
Definition str_conflicting : ustring :=
  str_order_detail_id_eq ++ [49; 49; 49; 49; 49; 49; 49; 49; 49; 49; 38]%N
  ++ str_orderId ++ [61; 50; 50; 50; 50; 50; 50; 50; 50; 50; 50]%N.



(** A line as [stock_lines] produces them. *)
Definition stock_line (l : ustring) : Prop :=
  l <> [] /\ (newline ∉ l) /\ py_strip l = l.


Definition str_A : ustring := [65]%N.
Definition str_B : ustring := [66]%N.
Definition str_A_nl_B : ustring := [65; 10; 66]%N.

(** One [data] card, id 1, stock ["A\nB"], last updated at time 0. *)
Definition stock_db : database :=
  mk_database []
    [Card.mk 1 [99%N] str_data None None (Some str_A_nl_B) None None (Some true)
             (Some 0) None None None 1 (Some 0) (Some 0)].

(** [s] does not start with white space. *)
Definition clean_front (s : ustring) : Prop :=
  match s with
  | [] => True
  | c :: _ => py_isspace c = false
  end.



Definition str_order_key : ustring := [49; 50; 51]%N.

(** [json.loads] only raises what the row loops catch. *)
Definition json_raises_only_caught (json_loads : pyvalue -> result pyvalue) : Prop :=
  forall v e, json_loads v = Raise e -> e = JSONDecodeError \/ e = TypeError.

(** The sort key of the plain keyword query. *)
Definition score_id_key (kw : ustring) (r : joined) : Z * Z :=
  (row_score kw r, DeliveryRule.id r.1).

(** [ORDER BY score DESC, id ASC] on the keys themselves. *)
Definition key_order (k1 k2 : Z * Z) : Prop :=
  k2.1 < k1.1 \/ (k1.1 = k2.1 /\ k1.2 <= k2.2).

(** One [consume_batch_data] per time stamp, one after the other. *)
Fixpoint pop_each (nows : list Z) (db : database) (card_id : Z)
    : database * list (option ustring) :=
  match nows with
  | [] => (db, [])
  | now :: nows' =>
      let (db1, r) := consume_batch_data None None now db card_id in
      let (db2, rs) := pop_each nows' db1 card_id in
      (db2, r :: rs)
  end.

(** The stock a card holds, line by line. *)
Definition card_lines (c : Card.t) : list ustring :=
  stock_lines (default [] (Card.data_content c)).

(** One [increment_delivery_times] per time stamp. *)
Fixpoint increment_each (nows : list Z) (db : database) (rule_id : Z) : database :=
  match nows with
  | [] => db
  | now :: nows' =>
      increment_each nows' (increment_delivery_times None None now db rule_id) rule_id
  end.

(** ['[记得及时发货]'], the one trigger keyword without a payment phrase. *)
Definition str_reminder : ustring :=
  [91; 35760; 24471; 21450; 26102; 21457; 36135; 93]%N.

(** A message whose ['1']['6']['3']['5'] is the text ["x"]. *)
Definition message_with_payload : pyvalue :=
  PyDict [(KeyStr key_1,
           PyDict [(KeyStr key_6,
                    PyDict [(KeyStr key_3,
                             PyDict [(KeyStr key_5, PyStr [120%N])])])])].

Definition str_cookie : ustring := [99; 49]%N.

(** One cookie account and one stored order of it. *)
Definition sample_orders : order_tables :=
  mk_order_tables
    [Order.mk str_order_key (Some str_a) None None None None None (Some str_unknown)
              (Some str_cookie) (Some 0) (Some 0) (Some 0)]
    [str_cookie].

Definition str_buyer : ustring := [98; 55]%N.

(** * Properties *)

(** ** The definitions on the inputs of the repository's tests *)

Example trigger_short_paid :
  _is_auto_delivery_trigger [91; 24050; 20184; 27454; 65292; 24453; 21457; 36135; 93]%N
  = true.
Proof. reflexivity. Qed.

Example no_trigger_partial_keyword :
  _is_auto_delivery_trigger [24050; 20184; 27454]%N = false.
Proof. reflexivity. Qed.

Example no_trigger_empty : _is_auto_delivery_trigger [] = false.
Proof. reflexivity. Qed.

Example nine_digits_are_not_an_order_id :
  re_search re_orderId (str_orderId ++ [61; 49; 50; 51; 52; 53; 54; 55; 56; 57]%N) = None.
Proof. reflexivity. Qed.

Example thirteen_digits_are_an_order_id :
  re_findall re_orderId
    (str_orderId ++ [61; 49; 50; 51; 52; 53; 54; 55; 56; 57; 48; 49; 50; 51; 39]%N)
  = [[49; 50; 51; 52; 53; 54; 55; 56; 57; 48; 49; 50; 51]%N].
Proof. reflexivity. Qed.

Example like_underscore_is_a_wildcard :
  sql_like [97; 98; 99]%N (wrap_pct [97; 95; 99]%N) = true.
Proof. reflexivity. Qed.

Example like_folds_ascii_case :
  sql_like [97; 98]%N (wrap_pct [65; 66]%N) = true.
Proof. reflexivity. Qed.

Example stock_lines_drop_blanks :
  stock_lines [32; 65; 32; 10; 10; 9; 10; 66; 13; 10]%N = [str_A; str_B].
Proof. reflexivity. Qed.


Lemma for_each_Forall2 {A B} (f : A -> result B) l bs :
  for_each f l = Ok bs -> Forall2 (fun a b => f a = Ok b) l bs.
Proof.
  revert bs. induction l as [|a l IH]; simpl; intros bs H.
  - injection H as <-. constructor.
  - destruct (f a) as [b|e] eqn:Hfa; simpl in H; [|discriminate].
    destruct (for_each f l) as [bs'|e] eqn:Hl; simpl in H; [|discriminate].
    injection H as <-. constructor; auto.
Qed.


Lemma select_elem cond order `{!forall x y, Decision (order x y)} db r :
  r ∈ select_where_order_by cond order db ->
  sql_holds (cond r) = true /\ r ∈ left_join_cards db.
Proof.
  unfold select_where_order_by. rewrite merge_sort_Permutation.
  rewrite list_elem_of_In, filter_In, <- list_elem_of_In. tauto.
Qed.

Lemma select_nil cond order `{!forall x y, Decision (order x y)} db :
  select_where_order_by cond order db = [] ->
  forall r, r ∈ left_join_cards db -> sql_holds (cond r) = false.
Proof.
  unfold select_where_order_by. intros Hnil r Hr.
  destruct (sql_holds (cond r)) eqn:E; [|done].
  assert (Hin : r ∈ merge_sort order (List.filter (fun r => sql_holds (cond r)) (left_join_cards db))).
  { rewrite merge_sort_Permutation, list_elem_of_In, filter_In, <- list_elem_of_In. done. }
  rewrite Hnil in Hin. by apply not_elem_of_nil in Hin.
Qed.

#[global] Instance by_score_then_id_total kw : Total (by_score_then_id kw).
Proof. intros x y. unfold by_score_then_id. lia. Qed.
#[global] Instance by_score_then_id_trans kw : Transitive (by_score_then_id kw).
Proof. intros x y z. unfold by_score_then_id. lia. Qed.

Lemma null_first_le_total a b : null_first_le a b \/ null_first_le b a.
Proof. destruct a, b; simpl; lia. Qed.
Lemma null_first_le_trans a b c : null_first_le a b -> null_first_le b c -> null_first_le a c.
Proof. destruct a, b, c; simpl; lia. Qed.

#[global] Instance by_score_then_times_total kw : Total (by_score_then_times kw).
Proof.
  intros x y. unfold by_score_then_times.
  destruct (null_first_le_total (DeliveryRule.delivery_times x.1)
                                (DeliveryRule.delivery_times y.1));
    destruct (Z.lt_trichotomy (row_score kw x) (row_score kw y)) as [?|[?|?]];
    intuition lia.
Qed.
#[global] Instance by_score_then_times_trans kw : Transitive (by_score_then_times kw).
Proof.
  intros x y z. unfold by_score_then_times.
  intros [H1|[H1 H1']] [H2|[H2 H2']]; try lia.
  right. split; [lia|]. eapply null_first_le_trans; eauto.
Qed.

Lemma select_sorted cond order `{!forall x y, Decision (order x y)}
    `{!Total order} `{!Transitive order} db :
  StronglySorted order (select_where_order_by cond order db).
Proof. apply StronglySorted_merge_sort; apply _. Qed.

Lemma sql_and_holds a b : sql_holds (sql_and a b) = true <-> sql_holds a = true /\ sql_holds b = true.
Proof. destruct a as [[]|], b as [[]|]; simpl; intuition congruence. Qed.


Lemma sql_eq_bool_holds a b : sql_holds (sql_eq_bool a b) = true <-> a = Some b.
Proof. destruct a as [[]|], b; simpl; intuition congruence. Qed.

Lemma left_join_elem db dr c :
  (dr, c) ∈ left_join_cards db ->
  dr ∈ delivery_rules db
  /\ match c with
     | Some c => c ∈ cards db /\ Card.id c = DeliveryRule.card_id dr
     | None => True
     end.
Proof.
  unfold left_join_cards. intros Hj.
  apply list_elem_of_In, in_flat_map in Hj as (dr' & Hdr & Hin).
  destruct (List.filter _ (cards db)) as [|c0 cs] eqn:E.
  - destruct Hin as [[= -> <-]|[]]. split; [by apply list_elem_of_In|done].
  - apply in_map_iff in Hin as (c' & [= -> <-] & Hc').
    split; [by apply list_elem_of_In|].
    rewrite <- E in Hc'. apply filter_In in Hc' as [Hc' Hid].
    split; [by apply list_elem_of_In|lia].
Qed.

Section MatcherFacts.
Variable json_loads : pyvalue -> result pyvalue.


Lemma keyword_row_built r d : keyword_row json_loads r = Ok d -> built_from r d.
Proof.
  destruct r as [dr c]. unfold keyword_row.
  destruct (load_api_config _ _); simpl; [|discriminate].
  intros [= <-]. by repeat split.
Qed.






End MatcherFacts.






Lemma starts_with_app p s : starts_with p s = true -> exists rest, s = p ++ rest.
Proof.
  revert s. induction p as [|a p IH]; intros s H; [by exists s|].
  destruct s as [|b s]; [discriminate|]. simpl in H.
  apply andb_true_iff in H as [->%N.eqb_eq H].
  destruct (IH _ H) as [rest ->]. by exists rest.
Qed.

Lemma str_contains_app p s :
  str_contains p s = true -> exists pre post, s = pre ++ p ++ post.
Proof.
  induction s as [|x s IH]; simpl; intros H.
  - rewrite orb_false_r in H. apply starts_with_app in H as [rest ->]. by exists [], rest.
  - apply orb_true_iff in H as [H|H].
    + apply starts_with_app in H as [rest ->]. by exists [], rest.
    + destruct (IH H) as (pre & post & ->). by exists (x :: pre), post.
Qed.

Lemma str_contains_length p s : str_contains p s = true -> (length p <= length s)%nat.
Proof.
  intros (pre & post & ->)%str_contains_app. rewrite !length_app. lia.
Qed.








Section RankingFacts.
Variable json_loads : pyvalue -> result pyvalue.

Lemma keyword_result_cases fault db kw ds :
  get_delivery_rules_by_keyword json_loads fault db kw = Ok ds ->
  ds = [] \/ Forall2 (fun r d => keyword_row json_loads r = Ok d) (keyword_query kw db) ds.
Proof.
  unfold get_delivery_rules_by_keyword, session_execute.
  destruct fault; simpl; [intros [= <-]; by left|].
  destruct (for_each _ _) eqn:E; simpl; intros [= <-]; [|by left].
  right. by apply for_each_Forall2.
Qed.







End RankingFacts.



Section TieFacts.
Variable json_loads : pyvalue -> result pyvalue.

End TieFacts.



Section NeverRaise.
Variable json_loads : pyvalue -> result pyvalue.
Variable py_str : pyvalue -> ustring.


End NeverRaise.


Lemma try_down_Some {A} (f : nat -> option A) lo n r :
  try_down f lo n = Some r -> exists k, (lo <= k <= lo + n)%nat /\ f k = Some r.
Proof.
  induction n as [|n IH]; simpl.
  - intros H. exists lo. split; [lia|done].
  - destruct (f (lo + S n)%nat) eqn:E.
    + intros [= <-]. exists (lo + S n)%nat. split; [lia|done].
    + intros H. destruct (IH H) as (k & Hk & Hf). exists k. split; [lia|done].
Qed.

Lemma run_length_take k limit s n :
  (n <= run_length k limit s)%nat ->
  Forall (fun c => in_class k c = true) (take n s) /\ length (take n s) = n.
Proof.
  revert limit s. induction n as [|n IH]; intros limit s Hn.
  - rewrite take_0. split; [constructor|done].
  - destruct s as [|c s]; simpl in Hn; [lia|].
    destruct (in_class k c) eqn:Ec; [|lia].
    destruct limit as [[|m]|]; [lia| |];
      apply le_S_n, IH in Hn as [Hall Hlen]; simpl; (split; [by constructor|lia]).
Qed.

Lemma match_here_group P re s g rest :
  group_chars P re -> match_here re s = Some (g, rest) ->
  Forall (fun c => P c = true) g /\ (group_min re <= length g)%nat.
Proof.
  intros Hre. revert s g rest. induction Hre as [|a re Ha Hre IH]; intros s g rest.
  - simpl. intros [= <- <-]. split; [constructor|done].
  - simpl. destruct (_ <? _)%nat eqn:Hlt; [discriminate|].
    apply Nat.ltb_ge in Hlt.
    intros (k & Hk & Hf)%try_down_Some.
    destruct (match_here re (drop k s)) as [[g' rest']|] eqn:Hm; [|discriminate].
    injection Hf as <- <-.
    destruct (IH _ _ _ Hm) as [Hg' Hlen'].
    destruct (run_length_take (cls a) (rmax a) s k) as [Hall Hlen]; [lia|].
    destruct (captured a) eqn:Hc.
    + split.
      * apply Forall_app. split; [|done].
        eapply Forall_impl; [exact Hall|]. intros c Hcin. by apply Ha.
      * rewrite length_app. lia.
    + split; [done|]. simpl. lia.
Qed.

Lemma re_search_group P re s g :
  group_chars P re -> re_search re s = Some g ->
  Forall (fun c => P c = true) g /\ (group_min re <= length g)%nat.
Proof.
  intros Hre. induction s as [|c s IH]; simpl.
  - destruct (match_here re []) as [[g' rest]|] eqn:Hm; [|discriminate].
    intros [= <-]. eapply match_here_group; eauto.
  - destruct (match_here re (c :: s)) as [[g' rest]|] eqn:Hm.
    + intros [= <-]. eapply match_here_group; eauto.
    + exact IH.
Qed.

(** [matches[0]] is what [re.search] finds. *)
Lemma findall_head re s fuel :
  (length s < fuel)%nat -> head (findall_from fuel re s) = re_search re s.
Proof.
  revert fuel. induction s as [|c s IH]; intros fuel Hf;
    (destruct fuel as [|fuel]; [simpl in Hf; lia|]); simpl.
  - by destruct (match_here re []) as [[g rest]|].
  - destruct (match_here re (c :: s)) as [[g rest]|]; [done|].
    apply IH. simpl in Hf. lia.
Qed.

Lemma re_findall_head re s : head (re_findall re s) = re_search re s.
Proof. apply findall_head. lia. Qed.

Lemma scan_patterns_cons p ps s :
  scan_patterns (p :: ps) s =
  match re_search p s with
  | Some g => Some g
  | None => scan_patterns ps s
  end.
Proof.
  simpl. rewrite <- re_findall_head. by destruct (re_findall p s).
Qed.

Lemma literal_not_captured l : Forall (fun a => captured a = false) (literal l).
Proof. unfold literal. induction l; simpl; constructor; auto. Qed.

Lemma group_min_app r1 r2 : group_min (r1 ++ r2) = (group_min r1 + group_min r2)%nat.
Proof. unfold group_min. induction r1; simpl; [done|]. rewrite IHr1. lia. Qed.

Lemma patterns_group p :
  p ∈ patterns -> group_chars py_isdecimal p /\ group_min p = 10%nat.
Proof.
  unfold patterns. rewrite !elem_of_cons, elem_of_nil.
  intros [->|[->|[->|[->|[]]]]]; (split; [|reflexivity]);
    unfold group_chars; repeat (constructor; [simpl; try discriminate; auto|]);
    constructor.
Qed.

Lemma scan_patterns_group ps s g :
  (forall p, p ∈ ps -> group_chars py_isdecimal p /\ group_min p = 10%nat) ->
  scan_patterns ps s = Some g ->
  (10 <= length g)%nat /\ Forall (fun c => py_isdecimal c = true) g.
Proof.
  induction ps as [|p ps IH]; intros Hps; [discriminate|].
  rewrite scan_patterns_cons.
  destruct (re_search p s) as [g'|] eqn:E.
  - intros [= <-]. destruct (Hps p) as [Hc Hm]; [by left|].
    destruct (re_search_group _ _ _ _ Hc E) as [? ?]. split; [lia|done].
  - apply IH. intros q Hq. apply Hps. by right.
Qed.

Lemma run_length_within k limit s : within (run_length k limit s) limit.
Proof.
  revert limit. induction s as [|c s IH]; intros limit; simpl.
  - destruct limit; simpl; lia.
  - destruct (in_class k c); [|destruct limit; simpl; lia].
    destruct limit as [[|m]|]; simpl; [lia| |done].
    specialize (IH (Some m)). simpl in IH. lia.
Qed.

Lemma within_le n m limit : (n <= m)%nat -> within m limit -> within n limit.
Proof. destruct limit; simpl; [lia|done]. Qed.

(** What [match_here] reports is a match of a prefix. *)
Lemma match_here_sound re s g rest :
  match_here re s = Some (g, rest) ->
  exists consumed, s = consumed ++ rest /\ re_matches re consumed g.
Proof.
  revert s g rest. induction re as [|a re IH]; intros s g rest; simpl.
  - intros [= <- <-]. exists []. split; [done|constructor].
  - destruct (_ <? _)%nat eqn:Hlt; [discriminate|]. apply Nat.ltb_ge in Hlt.
    intros (k & Hk & Hf)%try_down_Some.
    destruct (match_here re (drop k s)) as [[g' rest']|] eqn:Hm; [|discriminate].
    injection Hf as <- <-.
    destruct (IH _ _ _ Hm) as (consumed & Hs & Hre).
    destruct (run_length_take (cls a) (rmax a) s k) as [Hall Hlen]; [lia|].
    exists (take k s ++ consumed). split.
    + by rewrite <- app_assoc, <- Hs, take_drop.
    + apply re_matches_cons; [exact Hall|lia| |exact Hre].
      rewrite Hlen.
      apply (within_le _ (run_length (cls a) (rmax a) s));
        [lia|apply run_length_within].
Qed.

Lemma try_down_None {A} (f : nat -> option A) lo n :
  try_down f lo n = None -> forall k, (lo <= k <= lo + n)%nat -> f k = None.
Proof.
  induction n as [|n IH]; simpl.
  - intros H k Hk. by replace k with lo by lia.
  - destruct (f (lo + S n)%nat) eqn:E; [discriminate|].
    intros H k Hk. destruct (decide (k = lo + S n)%nat) as [->|]; [done|].
    apply IH; [done|lia].
Qed.

Lemma run_length_ge k limit chunk text :
  Forall (fun c => in_class k c = true) chunk ->
  within (length chunk) limit ->
  (length chunk <= run_length k limit (chunk ++ text))%nat.
Proof.
  intros H. revert limit. induction H as [|c chunk Hc _ IH]; intros limit Hw; simpl; [lia|].
  rewrite Hc. destruct limit as [[|m]|]; simpl in *; [lia| |].
  - specialize (IH (Some m)). simpl in IH. apply le_n_S, IH. lia.
  - apply le_n_S, (IH None). done.
Qed.

(** Whenever some prefix matches, [match_here] finds a match. *)
Lemma match_here_complete re consumed g rest :
  re_matches re consumed g -> match_here re (consumed ++ rest) <> None.
Proof.
  intros H. revert rest. induction H as [|a re chunk text group Hall Hmin Hmax _ IH];
    intros rest; simpl; [done|].
  pose proof (run_length_ge (cls a) (rmax a) chunk (text ++ rest) Hall Hmax) as Hrun.
  rewrite <- app_assoc.
  destruct (_ <? _)%nat eqn:Hlt; [apply Nat.ltb_lt in Hlt; lia|].
  intros Hnone.
  pose proof (try_down_None _ _ _ Hnone (length chunk)) as Hk.
  cbv beta in Hk. rewrite drop_app_length in Hk.
  assert (Hin : (rmin a <= length chunk
                 <= rmin a + (run_length (cls a) (rmax a) (chunk ++ text ++ rest)
                              - rmin a))%nat) by lia.
  specialize (Hk Hin).
  specialize (IH rest). by destruct (match_here re (text ++ rest)) as [[]|].
Qed.

(** [re.search] returns the group of a match that occurs in the text, and
    no match starts further left. *)
Lemma re_search_sound re s g :
  re_search re s = Some g ->
  exists pre consumed post,
    s = pre ++ consumed ++ post /\ re_matches re consumed g
    /\ forall pre' consumed' post' g',
         s = pre' ++ consumed' ++ post' -> re_matches re consumed' g' ->
         (length pre <= length pre')%nat.
Proof.
  induction s as [|c s IH]; simpl.
  - destruct (match_here re []) as [[g' rest]|] eqn:Hm; [|discriminate].
    intros [= <-]. apply match_here_sound in Hm as (consumed & Hs & Hre).
    exists [], consumed, rest. split; [done|]. split; [done|]. simpl. lia.
  - destruct (match_here re (c :: s)) as [[g' rest]|] eqn:Hm.
    + intros [= <-]. apply match_here_sound in Hm as (consumed & Hs & Hre).
      exists [], consumed, rest. split; [done|]. split; [done|]. simpl. lia.
    + intros H. destruct (IH H) as (pre & consumed & post & -> & Hre & Hleft).
      exists (c :: pre), consumed, post. split; [done|]. split; [done|].
      intros pre' consumed' post' g' Hs Hre'. destruct pre' as [|x pre'].
      * exfalso. simpl in Hs. rewrite Hs in Hm.
        by apply (match_here_complete _ _ _ post') in Hre'.
      * simpl. injection Hs as -> Hs. apply le_n_S. eapply Hleft; eauto.
Qed.

Lemma re_search_complete re pre consumed post g :
  re_matches re consumed g -> re_search re (pre ++ consumed ++ post) <> None.
Proof.
  intros Hre. induction pre as [|c pre IH]; simpl.
  - pose proof (match_here_complete _ _ _ post Hre) as Hm.
    destruct (consumed ++ post) as [|x s]; simpl;
      by destruct (match_here re _) as [[]|].
  - by destruct (match_here re (c :: pre ++ consumed ++ post)) as [[]|].
Qed.

Lemma scan_patterns_sound ps s g :
  scan_patterns ps s = Some g ->
  exists p pre consumed post,
    p ∈ ps /\ s = pre ++ consumed ++ post /\ re_matches p consumed g.
Proof.
  induction ps as [|p ps IH]; [discriminate|]. rewrite scan_patterns_cons.
  destruct (re_search p s) as [g'|] eqn:E.
  - intros [= <-]. apply re_search_sound in E as (pre & consumed & post & Hs & Hre & _).
    exists p, pre, consumed, post. split; [by left|done].
  - intros H. destruct (IH H) as (q & pre & consumed & post & Hq & Hs & Hre).
    exists q, pre, consumed, post. split; [by right|done].
Qed.

Lemma scan_patterns_none ps s :
  scan_patterns ps s = None ->
  forall p pre consumed post g,
    p ∈ ps -> s = pre ++ consumed ++ post -> ~ re_matches p consumed g.
Proof.
  induction ps as [|p ps IH]; intros Hn q pre consumed post g Hq Hs Hre.
  - by apply elem_of_nil in Hq.
  - rewrite scan_patterns_cons in Hn.
    destruct (re_search p s) as [g'|] eqn:E; [discriminate|].
    apply elem_of_cons in Hq as [->|Hq].
    + rewrite Hs in E. by apply (re_search_complete _ pre _ post) in Hre.
    + by apply (IH Hn q pre consumed post g).
Qed.

Section FallbackFacts.
Variable json_loads : pyvalue -> result pyvalue.
Variable py_str : pyvalue -> ustring.

(** C7: when the structured extraction ends without an order id, the
  extractor returns what the scan of [str(message)] finds: the patterns
  [orderId[=:](\d{10,})], [order_detail\?id=(\d{10,})],
  ["id"\s*:\s*"?(\d{10,})"?] and [bizOrderId[=:](\d{10,})] are tried in
  that order and the leftmost match of the first pattern that matches is
  the result; the id found has at least ten characters, all decimal
  digits, and is group 1 of an occurrence of one of the patterns in the
  text, while None means that no pattern occurs anywhere.  Matches of different patterns are not compared: a text in
  which [order_detail?id=1111111111] stands before [orderId=2222222222]
  yields 2222222222. *)
Theorem fallback_scans_patterns_in_order message :
  structured_extraction json_loads message = Ok None ->
  _extract_order_id json_loads py_str message
    = Ok (scan_patterns patterns (py_str message))
  /\ scan_patterns patterns (py_str message)
     = match re_search re_orderId (py_str message) with
       | Some g => Some g
       | None =>
           match re_search re_order_detail (py_str message) with
           | Some g => Some g
           | None =>
               match re_search re_quoted_id (py_str message) with
               | Some g => Some g
               | None => re_search re_bizOrderId (py_str message)
               end
           end
       end
  /\ (forall g, scan_patterns patterns (py_str message) = Some g ->
        (10 <= length g)%nat /\ Forall (fun c => py_isdecimal c = true) g)
  /\ (forall g, scan_patterns patterns (py_str message) = Some g ->
        exists p pre consumed post,
          p ∈ patterns /\ py_str message = pre ++ consumed ++ post
          /\ re_matches p consumed g)
  /\ (scan_patterns patterns (py_str message) = None ->
        forall p pre consumed post g,
          p ∈ patterns -> py_str message = pre ++ consumed ++ post ->
          ~ re_matches p consumed g)
  /\ (re_search re_order_detail str_conflicting = Some (replicate 10 49%N)
      /\ scan_patterns patterns str_conflicting = Some (replicate 10 50%N)).
Proof.
  intros Hs. split_and!.
  - unfold _extract_order_id, regex_fallback. rewrite Hs.
    generalize (scan_patterns patterns (py_str message)).
    by intros [g|].
  - unfold patterns. rewrite !scan_patterns_cons. simpl scan_patterns.
    by repeat case_match.
  - intros g. apply scan_patterns_group, patterns_group.
  - intros g. apply scan_patterns_sound.
  - apply scan_patterns_none.
  - by vm_compute.
  - by vm_compute.
Qed.
End FallbackFacts.

Lemma fallback_scans_patterns_in_order_witness :
  _extract_order_id no_json (fun _ => str_conflicting) (PyDict [])
  = Ok (Some (replicate 10 50%N)).
Proof.
  exact (proj1 (fallback_scans_patterns_in_order no_json (fun _ => str_conflicting)
                  (PyDict []) eq_refl)).
Defined.












(** *** Lines *)

Lemma lstrip_clean s : clean_front (lstrip s).
Proof.
  induction s as [|c s IH]; simpl; [done|].
  destruct (py_isspace c) eqn:E; [done|]. simpl. done.
Qed.

Lemma lstrip_id s : clean_front s -> lstrip s = s.
Proof. destruct s as [|c s]; simpl; [done|]. by intros ->. Qed.

Lemma lstrip_suffix s : exists w, s = w ++ lstrip s.
Proof.
  induction s as [|c s [w IH]]; simpl; [by exists []|].
  destruct (py_isspace c); [|by exists []].
  exists (c :: w). simpl. by rewrite <- IH.
Qed.

Lemma clean_front_rev_suffix t w u :
  clean_front t -> rev t = w ++ u -> clean_front (rev u).
Proof.
  intros Ht Hr. assert (Et : t = rev u ++ rev w).
  { rewrite <- (rev_involutive t), Hr, rev_app_distr. done. }
  destruct (rev u) as [|c r]; [done|]. by rewrite Et in Ht.
Qed.

Lemma py_strip_clean s : clean_front (py_strip s) /\ clean_front (rev (py_strip s)).
Proof.
  unfold py_strip. rewrite rev_involutive. split; [|apply lstrip_clean].
  destruct (lstrip_suffix (rev (lstrip s))) as [w Hw].
  eapply clean_front_rev_suffix; [apply lstrip_clean|exact Hw].
Qed.

Lemma py_strip_id s : clean_front s -> clean_front (rev s) -> py_strip s = s.
Proof.
  intros H1 H2. unfold py_strip.
  by rewrite (lstrip_id s), (lstrip_id (rev s)), rev_involutive.
Qed.

Lemma py_strip_idem s : py_strip (py_strip s) = py_strip s.
Proof. destruct (py_strip_clean s). by apply py_strip_id. Qed.

Lemma lstrip_Forall (P : N -> Prop) s : Forall P s -> Forall P (lstrip s).
Proof.
  induction 1 as [|c s Hc Hs IH]; simpl; [constructor|].
  destruct (py_isspace c); [done|by constructor].
Qed.

Lemma py_strip_Forall (P : N -> Prop) s : Forall P s -> Forall P (py_strip s).
Proof.
  intros H. unfold py_strip.
  apply Forall_rev, lstrip_Forall, Forall_rev, lstrip_Forall, H.
Qed.

Lemma split_newline_no_nl s :
  Forall (fun piece => Forall (fun c => c <> newline) piece) (split_newline s).
Proof.
  induction s as [|c s IH]; simpl; [by repeat constructor|].
  destruct (c =? newline)%N eqn:E; [by constructor|].
  apply N.eqb_neq in E.
  destruct (split_newline s) as [|piece pieces]; [by repeat constructor|].
  inversion IH; subst. constructor; [by constructor|done].
Qed.

Lemma stock_lines_are_lines content : Forall stock_line (stock_lines content).
Proof.
  unfold stock_lines. apply List.Forall_forall. intros l Hl.
  apply filter_In in Hl as [Hl Hne]. apply in_map_iff in Hl as (piece & <- & Hp).
  split_and!.
  - by destruct (py_strip piece).
  - pose proof (split_newline_no_nl content) as H.
    rewrite List.Forall_forall in H. apply H in Hp.
    apply (py_strip_Forall _ _) in Hp. rewrite List.Forall_forall in Hp.
    intros Hin. apply list_elem_of_In in Hin. by apply (Hp newline) in Hin.
  - apply py_strip_idem.
Qed.

Lemma split_newline_line l : newline ∉ l -> split_newline l = [l].
Proof.
  induction l as [|c l IH]; [done|]. intros [Hc Hl]%not_elem_of_cons. simpl.
  destruct (c =? newline)%N eqn:E; [apply N.eqb_eq in E; congruence|].
  by rewrite IH.
Qed.

Lemma split_newline_app l rest :
  newline ∉ l -> split_newline (l ++ newline :: rest) = l :: split_newline rest.
Proof.
  induction l as [|c l IH]; simpl.
  - intros _. done.
  - intros [Hc Hl]%not_elem_of_cons.
    destruct (c =? newline)%N eqn:E; [apply N.eqb_eq in E; congruence|].
    by rewrite IH.
Qed.

Lemma split_join ls :
  ls <> [] -> Forall stock_line ls -> split_newline (join_newline ls) = ls.
Proof.
  intros Hne H. induction H as [|l ls Hl Hls IH]; [done|].
  destruct Hl as (_ & Hnl & _). destruct ls as [|l' ls].
  - simpl. by apply split_newline_line.
  - change (join_newline (l :: l' :: ls)) with (l ++ newline :: join_newline (l' :: ls)).
    rewrite split_newline_app by done. by rewrite IH.
Qed.

Lemma strip_filter_lines ls :
  Forall stock_line ls ->
  List.filter (fun l => py_truthy (PyStr l)) (map py_strip ls) = ls.
Proof.
  induction 1 as [|x xs Hx Hxs IH]; [done|].
  destruct Hx as (Hne & _ & Hs). cbn [map List.filter]. rewrite Hs, IH.
  by destruct x.
Qed.

(** The lines written back are the lines the next call reads. *)
Lemma stock_lines_join ls : Forall stock_line ls -> stock_lines (join_newline ls) = ls.
Proof.
  intros H. destruct ls as [|l ls]; [done|].
  unfold stock_lines. rewrite split_join by done. by apply strip_filter_lines.
Qed.

(** *** The card table *)

Lemma first_data_card_id card_id db card :
  first_data_card card_id db = Some card -> Card.id card = card_id /\ card ∈ cards db.
Proof.
  unfold first_data_card. intros H. apply find_some in H as [Hin H].
  apply andb_true_iff in H as [H _]. split; [lia|by apply list_elem_of_In].
Qed.

Lemma first_data_card_update card_id db card content now :
  first_data_card card_id db = Some card ->
  first_data_card card_id (update_card (Card.id card) (set_data_content content now) db)
  = Some (set_data_content content now card).
Proof.
  intros H. destruct (first_data_card_id _ _ _ H) as [Hid _]. rewrite Hid.
  unfold first_data_card, update_card in *. simpl.
  induction (cards db) as [|c cs IH]; [discriminate|]. simpl in *.
  destruct (Card.id c =? card_id) eqn:E; simpl in *.
  - rewrite E. simpl. destruct (ustring_eqb (Card.type c) str_data); [congruence|auto].
  - rewrite E. simpl. auto.
Qed.

Lemma consume_success now db card_id card content first_line rest :
  first_data_card card_id db = Some card ->
  Card.data_content card = Some content ->
  stock_lines content = first_line :: rest ->
  consume_batch_data None None now db card_id
  = (update_card card_id (set_data_content (join_newline rest) now) db, Some first_line).
Proof.
  intros Hc Hd Hl. unfold consume_batch_data. simpl. rewrite Hc, Hd.
  destruct content as [|x content]; [discriminate|]. rewrite Hl. simpl.
  by destruct (first_data_card_id _ _ _ Hc) as [-> _].
Qed.

Lemma pop_step now db card_id card content first_line rest :
  first_data_card card_id db = Some card ->
  Card.data_content card = Some content ->
  stock_lines content = first_line :: rest ->
  (consume_batch_data None None now db card_id).2 = Some first_line
  /\ first_data_card card_id (consume_batch_data None None now db card_id).1
     = Some (set_data_content (join_newline rest) now card)
  /\ stock_lines (join_newline rest) = rest.
Proof.
  intros Hc Hd Hl. rewrite (consume_success _ _ _ _ _ _ _ Hc Hd Hl). simpl.
  split; [done|]. split.
  - destruct (first_data_card_id _ _ _ Hc) as [Hid _].
    rewrite <- Hid at 2. by apply first_data_card_update.
  - apply stock_lines_join.
    pose proof (stock_lines_are_lines content) as H. rewrite Hl in H.
    by inversion H.
Qed.





Lemma consume_cases qf cf now db card_id :
  consume_batch_data qf cf now db card_id = (db, None)
  \/ exists card content first_line rest,
       qf = None /\ cf = None
       /\ first_data_card card_id db = Some card
       /\ Card.data_content card = Some content
       /\ stock_lines content = first_line :: rest
       /\ consume_batch_data qf cf now db card_id
          = (update_card card_id (set_data_content (join_newline rest) now) db,
             Some first_line).
Proof.
  unfold consume_batch_data, session_execute.
  destruct qf; simpl; [by left|].
  destruct (first_data_card card_id db) as [card|] eqn:Hc; [|by left].
  destruct (Card.data_content card) as [[|x content]|] eqn:Hd; [by left| |by left].
  destruct (stock_lines (x :: content)) as [|first_line rest] eqn:Hl; [by left|].
  destruct cf; simpl; [by left|].
  right. exists card, (x :: content), first_line, rest.
  destruct (first_data_card_id _ _ _ Hc) as [-> _]. by split_and!.
Qed.









(** * Further properties of the matcher, the stock, the classifier and
    the maintenance functions *)

(** ** What the keyword query returns *)



Lemma for_each_total {A B} (f : A -> result B) l :
  (forall a, a ∈ l -> exists b, f a = Ok b) -> exists bs, for_each f l = Ok bs.
Proof.
  induction l as [|a l IH]; intros H; [by exists []|].
  destruct (H a) as [b Hb]; [by left|].
  destruct IH as [bs Hbs]; [intros x Hx; apply H; by right|].
  exists (b :: bs). simpl. by rewrite Hb, Hbs.
Qed.

Lemma enabled_and_like_holds kw r :
  sql_holds (where_enabled_and_like kw r) = true <->
  DeliveryRule.enabled r.1 = Some true
  /\ card_col Card.enabled r.2 = Some true
  /\ (kw_like_keyword kw (DeliveryRule.keyword r.1) = true
      \/ keyword_like_kw kw (DeliveryRule.keyword r.1) = true).
Proof.
  unfold where_enabled_and_like. rewrite !sql_and_holds, !sql_eq_bool_holds.
  destruct (kw_like_keyword _ _), (keyword_like_kw _ _); simpl; intuition congruence.
Qed.



Section MatcherCoverage.
Variable json_loads : pyvalue -> result pyvalue.

Lemma load_api_config_ok raw :
  json_raises_only_caught json_loads -> exists v, load_api_config json_loads raw = Ok v.
Proof.
  intros Hj. unfold load_api_config. destruct raw as [s|]; [|by eexists].
  destruct (py_truthy (PyStr s)); [|by eexists].
  destruct (json_loads (PyStr s)) as [v|e] eqn:E; simpl; [by eexists|].
  destruct (Hj _ _ E) as [-> | ->]; by eexists.
Qed.

Lemma keyword_row_ok r :
  json_raises_only_caught json_loads -> exists d, keyword_row json_loads r = Ok d.
Proof.
  intros Hj. destruct r as [dr c]. unfold keyword_row.
  destruct (load_api_config_ok (card_col Card.api_config c) Hj) as [v ->].
  simpl. by eexists.
Qed.

Lemma keyword_row_flags r d :
  keyword_row json_loads r = Ok d ->
  RuleDict.enabled d = py_bool (DeliveryRule.enabled r.1)
  /\ RuleDict.card_enabled d = py_bool (card_col Card.enabled r.2).
Proof.
  destruct r as [dr c]. unfold keyword_row.
  destruct (load_api_config _ _); simpl; [|discriminate]. by intros [= <-].
Qed.

Lemma keyword_result_rows db kw :
  json_raises_only_caught json_loads ->
  exists ds,
    get_delivery_rules_by_keyword json_loads None db kw = Ok ds
    /\ Forall2 (fun r d => keyword_row json_loads r = Ok d) (keyword_query kw db) ds.
Proof.
  intros Hj.
  destruct (for_each_total (keyword_row json_loads) (keyword_query kw db)) as [ds Hds].
  { intros r _. by apply keyword_row_ok. }
  exists ds. split; [|by apply for_each_Forall2].
  unfold get_delivery_rules_by_keyword. simpl. by rewrite Hds.
Qed.

(** X1: every dict returned by [get_delivery_rules_by_keyword] comes from
    an enabled rule and an existing enabled card joined on [card_id], whose
    keyword matches the text by one of the two LIKE tests; its [enabled]
    and [card_enabled] entries are both true. *)
Theorem keyword_match_is_eligible fault db kw ds d :
  get_delivery_rules_by_keyword json_loads fault db kw = Ok ds ->
  d ∈ ds ->
  exists dr c,
    dr ∈ delivery_rules db /\ c ∈ cards db
    /\ Card.id c = DeliveryRule.card_id dr
    /\ RuleDict.id d = DeliveryRule.id dr /\ RuleDict.card_id d = Card.id c
    /\ DeliveryRule.enabled dr = Some true /\ Card.enabled c = Some true
    /\ RuleDict.enabled d = true /\ RuleDict.card_enabled d = true
    /\ (kw_like_keyword kw (DeliveryRule.keyword dr) = true
        \/ keyword_like_kw kw (DeliveryRule.keyword dr) = true).
Proof.
  intros Hres Hd.
  apply keyword_result_cases in Hres as [->|HF]; [by apply not_elem_of_nil in Hd|].
  apply list_elem_of_lookup in Hd as [i Hi].
  destruct (Forall2_lookup_r _ _ _ _ _ HF Hi) as ([dr oc] & Hr & Hp).
  apply list_elem_of_lookup_2, select_elem in Hr as [Hw Hj].
  apply enabled_and_like_holds in Hw as (He & Hce & Hlike). simpl in He, Hce, Hlike.
  destruct oc as [c|]; [|discriminate]. simpl in Hce.
  apply left_join_elem in Hj as (Hdr & Hc & Hid).
  pose proof (keyword_row_flags _ _ Hp) as [Hf1 Hf2]. simpl in Hf1, Hf2.
  apply keyword_row_built in Hp as (Hdi & _ & Hdc & _). simpl in Hdi, Hdc.
  exists dr, c. split_and!; try done.
  - congruence.
  - by rewrite Hf1, He.
  - by rewrite Hf2, Hce.
Qed.


End MatcherCoverage.

Lemma keyword_match_is_eligible_witness :
  exists ds,
    get_delivery_rules_by_keyword no_json None phone_db str_you_shoujike_ma = Ok ds
    /\ ds <> []
    /\ forall d, d ∈ ds ->
         exists dr c,
           dr ∈ delivery_rules phone_db /\ c ∈ cards phone_db
           /\ RuleDict.id d = DeliveryRule.id dr
           /\ DeliveryRule.enabled dr = Some true /\ Card.enabled c = Some true.
Proof.
  eexists.
  assert (H : get_delivery_rules_by_keyword no_json None phone_db str_you_shoujike_ma
              = Ok _) by (vm_compute; reflexivity).
  split; [exact H|]. split; [discriminate|]. intros d Hd.
  destruct (keyword_match_is_eligible no_json None phone_db str_you_shoujike_ma _ d H Hd)
    as (dr & c & H1 & H2 & _ & H4 & _ & H6 & H7 & _).
  exists dr, c. repeat split; assumption.
Defined.



(** ** The ranking is a function of the rows *)

Lemma List_filter_Permutation {A} (f : A -> bool) l l' :
  l ≡ₚ l' -> List.filter f l ≡ₚ List.filter f l'.
Proof.
  induction 1 as [|x l l' _ IH|x y l|l1 l2 l3 _ IH1 _ IH2]; simpl.
  - done.
  - destruct (f x); [by constructor|done].
  - destruct (f x), (f y); try done. apply perm_swap.
  - by etrans.
Qed.

Lemma flat_map_Permutation {A B} (f g : A -> list B) l l' :
  l ≡ₚ l' -> (forall x, f x ≡ₚ g x) -> flat_map f l ≡ₚ flat_map g l'.
Proof.
  intros Hl Hfg. induction Hl as [|x l l' _ IH|x y l|l1 l2 l3 _ IH1 H23 IH2]; simpl.
  - done.
  - by rewrite (Hfg x), IH.
  - rewrite (Hfg x), (Hfg y), !app_assoc. f_equiv; [apply Permutation_app_comm|].
    induction l as [|z l IHl]; simpl; [done|]. by rewrite (Hfg z), IHl.
  - etrans; [exact IH1|]. etrans; [|exact IH2].
    clear -Hfg. induction l2 as [|z l IHl]; simpl; [done|].
    assert (Hgz : g z ≡ₚ f z) by (symmetry; apply Hfg).
    rewrite Hgz.
    f_equiv. etrans; [exact IHl|]. clear.
    induction l; [done|]. simpl. done.
Qed.

Lemma left_join_Permutation db db' :
  delivery_rules db ≡ₚ delivery_rules db' -> cards db ≡ₚ cards db' ->
  left_join_cards db ≡ₚ left_join_cards db'.
Proof.
  intros Hr Hc. unfold left_join_cards. apply flat_map_Permutation; [done|].
  intros dr.
  pose proof (List_filter_Permutation
                (fun c => Card.id c =? DeliveryRule.card_id dr) _ _ Hc) as Hf.
  destruct (List.filter _ (cards db)) as [|c cs].
  - apply Permutation_nil in Hf. by rewrite Hf.
  - destruct (List.filter _ (cards db')) as [|c' cs'].
    + symmetry in Hf. by apply Permutation_nil in Hf.
    + by apply (fmap_Permutation (fun c => (dr, Some c))).
Qed.

Lemma NoDup_fmap_eq {A B} (f : A -> B) l x y :
  NoDup (f <$> l) -> x ∈ l -> y ∈ l -> f x = f y -> x = y.
Proof.
  induction l as [|a l IH]; simpl; intros Hnd Hx Hy Hf; [by apply elem_of_nil in Hx|].
  apply NoDup_cons in Hnd as [Ha Hnd].
  apply elem_of_cons in Hx as [->|Hx]; apply elem_of_cons in Hy as [->|Hy]; auto.
  - exfalso. apply Ha. rewrite Hf. by apply list_elem_of_fmap_2.
  - exfalso. apply Ha. rewrite <- Hf. by apply list_elem_of_fmap_2.
Qed.

Lemma for_each_ext_det {A B} (f : A -> result B) l bs bs' :
  Forall2 (fun a b => f a = Ok b) l bs -> Forall2 (fun a b => f a = Ok b) l bs' ->
  bs = bs'.
Proof.
  intros H. revert bs'. induction H as [|a b l bs Hab _ IH]; intros bs' H'.
  - by inversion H'.
  - inversion H' as [|? b' ? bs'' Hab' Hrest]; subst. f_equal; [congruence|auto].
Qed.

Section RowOrder.
Variable json_loads : pyvalue -> result pyvalue.

(** X4: with rule ids and card ids unique, the list returned by
    [get_delivery_rules_by_keyword] does not depend on the order in which
    the tables store their rows: [ORDER BY score DESC, id ASC] fixes it. *)
Theorem keyword_match_ignores_row_order db db' kw :
  json_raises_only_caught json_loads ->
  delivery_rules db ≡ₚ delivery_rules db' -> cards db ≡ₚ cards db' ->
  NoDup (DeliveryRule.id <$> delivery_rules db) -> NoDup (Card.id <$> cards db) ->
  get_delivery_rules_by_keyword json_loads None db' kw
  = get_delivery_rules_by_keyword json_loads None db kw.
Proof.
  intros Hj Hr Hc Hnr Hnc.
  destruct (keyword_result_rows json_loads db kw Hj) as (ds & -> & HF).
  destruct (keyword_result_rows json_loads db' kw Hj) as (ds' & -> & HF').
  assert (Hrows : keyword_query kw db = keyword_query kw db').
  { apply (StronglySorted_unique_strong (by_score_then_id kw)).
    - intros [dr1 oc1] [dr2 oc2] H1 H2 R12 R21.
      apply select_elem in H1 as [Hw1 Hj1], H2 as [Hw2 Hj2].
      apply enabled_and_like_holds in Hw1 as (_ & Hce1 & _), Hw2 as (_ & Hce2 & _).
      simpl in Hce1, Hce2.
      destruct oc1 as [c1|]; [|discriminate]. destruct oc2 as [c2|]; [|discriminate].
      apply left_join_elem in Hj1 as (Hdr1 & Hc1 & Hid1), Hj2 as (Hdr2 & Hc2 & Hid2).
      rewrite <- Hr in Hdr2. rewrite <- Hc in Hc2.
      assert (Hids : DeliveryRule.id dr1 = DeliveryRule.id dr2).
      { unfold by_score_then_id in R12, R21. simpl in R12, R21. lia. }
      assert (dr1 = dr2) as <- by (eapply NoDup_fmap_eq; eauto).
      assert (c1 = c2) as <-; [|done].
      eapply NoDup_fmap_eq; eauto. congruence.
    - apply select_sorted; apply _.
    - apply select_sorted; apply _.
    - unfold keyword_query, select_where_order_by. rewrite !merge_sort_Permutation.
      by apply List_filter_Permutation, left_join_Permutation. }
  rewrite <- Hrows in HF'. f_equal. symmetry. eapply for_each_ext_det; eauto.
Qed.
End RowOrder.

Lemma keyword_match_ignores_row_order_witness :
  get_delivery_rules_by_keyword no_json None
    (mk_database (rev (delivery_rules phone_db)) (rev (cards phone_db)))
    str_you_shoujike_ma
  = get_delivery_rules_by_keyword no_json None phone_db str_you_shoujike_ma.
Proof.
  apply (keyword_match_ignores_row_order no_json).
  - intros v e [= <-]. by left.
  - simpl. apply perm_swap.
  - simpl. apply perm_swap.
  - compute_done.
  - compute_done.
Defined.

(** ** Sequences of stock pops *)

Lemma consume_no_lines qf cf now db card_id card :
  first_data_card card_id db = Some card -> card_lines card = [] ->
  consume_batch_data qf cf now db card_id = (db, None).
Proof.
  intros Hc Hl. unfold consume_batch_data, session_execute.
  destruct qf; simpl; [done|]. rewrite Hc. unfold card_lines in Hl.
  destruct (Card.data_content card) as [[|x content]|]; try done.
  simpl in Hl. by rewrite Hl.
Qed.

(** X5: consecutive calls of [consume_batch_data] on a [data] card hand
    out its non-blank trimmed lines one by one in their order, and [None]
    from then on. *)
Theorem repeated_pops_deliver_the_lines_in_order nows db card_id card :
  first_data_card card_id db = Some card ->
  (pop_each nows db card_id).2
  = (Some <$> take (length nows) (card_lines card))
    ++ replicate (length nows - length (card_lines card)) None.
Proof.
  revert db card. induction nows as [|now nows IH]; intros db card Hc; [done|].
  simpl. destruct (card_lines card) as [|l rest] eqn:Hl.
  - rewrite (consume_no_lines _ _ _ _ _ _ Hc Hl).
    specialize (IH db card Hc). rewrite Hl in IH.
    destruct (pop_each nows db card_id) as [db2 rs]. simpl in *.
    rewrite IH. rewrite take_nil. simpl. by rewrite Nat.sub_0_r.
  - unfold card_lines in Hl.
    destruct (Card.data_content card) as [content|] eqn:Hd; [|discriminate].
    simpl in Hl.
    destruct (pop_step now db card_id card content l rest Hc Hd Hl) as (H1 & H2 & H3).
    destruct (consume_batch_data None None now db card_id) as [db1 r]. simpl in H1, H2.
    specialize (IH db1 _ H2).
    unfold card_lines in IH. simpl in IH. rewrite H3 in IH.
    destruct (pop_each nows db1 card_id) as [db2 rs]. simpl in *.
    by rewrite IH, H1.
Qed.

Lemma repeated_pops_deliver_the_lines_in_order_witness :
  (pop_each [1; 2; 3] stock_db 1).2 = [Some str_A; Some str_B; None].
Proof.
  exact (repeated_pops_deliver_the_lines_in_order [1; 2; 3] stock_db 1 _ eq_refl).
Defined.






(** ** The delivery counter *)

Lemma find_none_map_id {A} (p : A -> bool) (f : A -> A) l :
  List.find p l = None -> map (fun x => if p x then f x else x) l = l.
Proof.
  induction l as [|a l IH]; simpl; [done|].
  destruct (p a); [discriminate|]. intros H. by rewrite IH.
Qed.

Lemma increment_step now db rule_id :
  increment_delivery_times None None now db rule_id
  = mk_database
      (map (fun dr => if DeliveryRule.id dr =? rule_id
                      then bump_delivery_times now dr else dr) (delivery_rules db))
      (cards db).
Proof.
  unfold increment_delivery_times, session_execute. simpl.
  destruct (List.find _ (delivery_rules db)) as [rule|] eqn:E.
  - simpl. apply find_some in E as [_ E]. apply Z.eqb_eq in E. by rewrite E.
  - rewrite (find_none_map_id (fun dr => DeliveryRule.id dr =? rule_id)) by done.
    by destruct db.
Qed.

(** X7: [n] calls of [increment_delivery_times] for a rule id add [n] to
    the [delivery_times] of the rule with that id ([NULL] counting as 0),
    change of it otherwise only [updated_at], and leave every other rule
    and every card as they are. *)
Theorem increments_add_up nows db rule_id i dr :
  delivery_rules db !! i = Some dr ->
  cards (increment_each nows db rule_id) = cards db
  /\ exists dr',
       delivery_rules (increment_each nows db rule_id) !! i = Some dr'
       /\ DeliveryRule.id dr' = DeliveryRule.id dr
       /\ DeliveryRule.keyword dr' = DeliveryRule.keyword dr
       /\ DeliveryRule.card_id dr' = DeliveryRule.card_id dr
       /\ DeliveryRule.delivery_count dr' = DeliveryRule.delivery_count dr
       /\ DeliveryRule.enabled dr' = DeliveryRule.enabled dr
       /\ DeliveryRule.description dr' = DeliveryRule.description dr
       /\ DeliveryRule.user_id dr' = DeliveryRule.user_id dr
       /\ DeliveryRule.created_at dr' = DeliveryRule.created_at dr
       /\ (DeliveryRule.id dr <> rule_id -> dr' = dr)
       /\ (DeliveryRule.id dr = rule_id -> nows <> [] ->
             DeliveryRule.delivery_times dr'
             = Some (or_zero (DeliveryRule.delivery_times dr) + Z.of_nat (length nows))).
Proof.
  revert db dr. induction nows as [|now nows IH]; intros db dr Hi.
  - simpl. split; [done|]. exists dr. by split_and!.
  - simpl. rewrite increment_step.
    set (db1 := mk_database _ _).
    assert (Hi1 : delivery_rules db1 !! i
                  = Some (if DeliveryRule.id dr =? rule_id
                          then bump_delivery_times now dr else dr)).
    { unfold db1. simpl. by rewrite list_lookup_fmap, Hi. }
    destruct (IH db1 _ Hi1) as (Hc & dr' & Hl & E1 & E2 & E3 & E4 & E5 & E6 & E7 & E8 & Hne & Heq).
    split; [by rewrite Hc|]. exists dr'.
    destruct (DeliveryRule.id dr =? rule_id) eqn:E.
    + apply Z.eqb_eq in E. simpl in E1, E2, E3, E4, E5, E6, E7, E8, Heq.
      split_and!; try done.
      intros _ _. destruct nows as [|now' nows'].
      * cbn [increment_each] in Hl. rewrite Hi1 in Hl. injection Hl as <-.
        simpl. f_equal; lia.
      * rewrite Heq by done. simpl length. f_equal; lia.
    + apply Z.eqb_neq in E. by split_and!.
Qed.

Lemma increments_add_up_witness :
  exists dr',
    delivery_rules (increment_each [7; 8; 9] tie_spec_db 1) !! 0%nat = Some dr'
    /\ DeliveryRule.delivery_times dr' = Some 8.
Proof.
  destruct (increments_add_up [7; 8; 9] tie_spec_db 1 0%nat _ eq_refl)
    as (_ & dr' & Hl & _ & _ & _ & _ & _ & _ & _ & _ & _ & Hn).
  exists dr'. split; [exact Hl|]. apply Hn; done.
Defined.

#[global] Instance key_order_antisym : AntiSymm (=) key_order.
Proof.
  intros [s1 i1] [s2 i2]. unfold key_order. simpl. intros H1 H2.
  f_equal; lia.
Qed.

#[global] Instance key_order_trans : Transitive key_order.
Proof. intros x y z. unfold key_order. lia. Qed.

Lemma sorted_keys_unique kw rows1 rows2 :
  score_id_key kw <$> rows1 ≡ₚ score_id_key kw <$> rows2 ->
  score_id_key kw <$> merge_sort (by_score_then_id kw) rows1
  = score_id_key kw <$> merge_sort (by_score_then_id kw) rows2.
Proof.
  intros Hp. apply (StronglySorted_unique key_order).
  - apply (StronglySorted_fmap _ (by_score_then_id kw)); [done|].
    apply StronglySorted_merge_sort; apply _.
  - apply (StronglySorted_fmap _ (by_score_then_id kw)); [done|].
    apply StronglySorted_merge_sort; apply _.
  - by rewrite !merge_sort_Permutation.
Qed.

Lemma left_join_map_rules (g : DeliveryRule.t -> DeliveryRule.t) db :
  (forall dr, DeliveryRule.card_id (g dr) = DeliveryRule.card_id dr) ->
  left_join_cards (mk_database (map g (delivery_rules db)) (cards db))
  = map (fun r => (g r.1, r.2)) (left_join_cards db).
Proof.
  intros Hg. unfold left_join_cards. simpl.
  induction (delivery_rules db) as [|dr rules IH]; [done|]. simpl.
  rewrite map_app, IH, Hg. f_equal.
  destruct (List.filter _ (cards db)); [done|]. simpl. f_equal.
  rewrite map_map. done.
Qed.

Lemma filter_map_same {A B} (f : A -> bool) (h : B -> A) (p : B -> bool) l :
  (forall x, f (h x) = p x) -> List.filter f (map h l) = map h (List.filter p l).
Proof.
  intros H. induction l as [|a l IH]; [done|]. simpl. rewrite H.
  destruct (p a); simpl; by rewrite IH.
Qed.

Section RankingAfterDelivery.
Variable json_loads : pyvalue -> result pyvalue.

Lemma keyword_rows_ids kw rows ds :
  Forall2 (fun r d => keyword_row json_loads r = Ok d) rows ds ->
  RuleDict.id <$> ds = snd <$> (score_id_key kw <$> rows).
Proof.
  induction 1 as [|r d rows ds Hrd _ IH]; [done|]. csimpl. rewrite IH. f_equal.
  by apply keyword_row_built in Hrd as (-> & _).
Qed.

(** X8: [increment_delivery_times] does not change which rules
    [get_delivery_rules_by_keyword] returns nor their order, since that
    query ranks by score and id, not by [delivery_times]. *)
Theorem increment_keeps_keyword_ranking now db rule_id kw :
  json_raises_only_caught json_loads ->
  exists ds ds',
    get_delivery_rules_by_keyword json_loads None db kw = Ok ds
    /\ get_delivery_rules_by_keyword json_loads None
         (increment_delivery_times None None now db rule_id) kw = Ok ds'
    /\ RuleDict.id <$> ds' = RuleDict.id <$> ds.
Proof.
  intros Hj.
  destruct (keyword_result_rows json_loads db kw Hj) as (ds & Hres & HF).
  destruct (keyword_result_rows json_loads
              (increment_delivery_times None None now db rule_id) kw Hj)
    as (ds' & Hres' & HF').
  exists ds, ds'. split; [done|]. split; [done|].
  rewrite (keyword_rows_ids kw _ _ HF), (keyword_rows_ids kw _ _ HF'). f_equal.
  unfold keyword_query, select_where_order_by. apply sorted_keys_unique.
  rewrite increment_step.
  set (g := fun dr => if DeliveryRule.id dr =? rule_id
                      then bump_delivery_times now dr else dr).
  assert (Hg : forall dr, DeliveryRule.card_id (g dr) = DeliveryRule.card_id dr
                          /\ DeliveryRule.id (g dr) = DeliveryRule.id dr
                          /\ DeliveryRule.keyword (g dr) = DeliveryRule.keyword dr
                          /\ DeliveryRule.enabled (g dr) = DeliveryRule.enabled dr).
  { intros dr. unfold g. by destruct (DeliveryRule.id dr =? rule_id). }
  rewrite (left_join_map_rules g) by (intros dr; apply Hg).
  rewrite (filter_map_same _ _ (fun r => sql_holds (where_enabled_and_like kw r))).
  - rewrite <- list_fmap_compose.
    match goal with |- ?X ≡ₚ ?Y => enough (E : X = Y) by (by rewrite E) end.
    apply list_fmap_ext. intros _ [dr c] _. unfold score_id_key, row_score. simpl.
    destruct (Hg dr) as (_ & -> & -> & _). done.
  - intros [dr c]. unfold where_enabled_and_like. simpl.
    destruct (Hg dr) as (_ & _ & -> & ->). done.
Qed.
End RankingAfterDelivery.

Lemma increment_keeps_keyword_ranking_witness :
  exists ds ds',
    get_delivery_rules_by_keyword no_json None tie_spec_db str_a = Ok ds
    /\ get_delivery_rules_by_keyword no_json None
         (increment_delivery_times None None 9 tie_spec_db 2) str_a = Ok ds'
    /\ RuleDict.id <$> ds' = RuleDict.id <$> ds.
Proof.
  apply (increment_keeps_keyword_ranking no_json 9 tie_spec_db 2 str_a).
  intros v e [= <-]. by left.
Defined.

(** ** Triggers and extracted order ids *)

Lemma starts_with_intro p rest : starts_with p (p ++ rest) = true.
Proof. induction p as [|a p IH]; [done|]. simpl. by rewrite N.eqb_refl, IH. Qed.

Lemma str_contains_intro p pre post : str_contains p (pre ++ p ++ post) = true.
Proof.
  induction pre as [|x pre IH]; simpl.
  - destruct (p ++ post) eqn:E; simpl; rewrite <- ?E, starts_with_intro; done.
  - rewrite IH. apply orb_true_r.
Qed.

Lemma str_contains_trans q p m :
  str_contains q p = true -> str_contains p m = true -> str_contains q m = true.
Proof.
  intros (a & b & ->)%str_contains_app (c & d & ->)%str_contains_app.
  rewrite <- !app_assoc, app_assoc. apply str_contains_intro.
Qed.

Lemma existsb_intro {A} (f : A -> bool) l x : x ∈ l -> f x = true -> existsb f l = true.
Proof.
  intros Hx Hf. apply existsb_exists. exists x. split; [by apply list_elem_of_In|done].
Qed.

(** X11: a text that [_is_auto_delivery_trigger] accepts holds a
    payment phrase of [_detect_payment], or it holds the shipping reminder
    ['[记得及时发货]']. *)
Theorem trigger_is_detected_or_reminder py_str message :
  _is_auto_delivery_trigger (py_str message) = true ->
  _detect_payment py_str message = true
  \/ str_contains str_reminder (py_str message) = true.
Proof.
  unfold _is_auto_delivery_trigger, _detect_payment. intros H.
  apply existsb_exists in H as (kw & Hkw & Hc).
  unfold auto_delivery_keywords in Hkw. simpl in Hkw.
  destruct Hkw as [<-|[<-|[<-|[<-|[]]]]].
  - left. apply (existsb_intro _ _ (nth 0 payment_indicators [])); [by left|].
    eapply str_contains_trans; [|exact Hc]. reflexivity.
  - left. apply (existsb_intro _ _ (nth 1 payment_indicators [])); [right; by left|].
    eapply str_contains_trans; [|exact Hc]. reflexivity.
  - left. apply (existsb_intro _ _ (nth 0 payment_indicators [])); [by left|].
    eapply str_contains_trans; [|exact Hc]. reflexivity.
  - by right.
Qed.

Lemma trigger_is_detected_or_reminder_witness :
  _detect_payment (fun _ => nth 0 auto_delivery_keywords []) PyNone = true
  \/ str_contains str_reminder (nth 0 auto_delivery_keywords []) = true.
Proof.
  exact (trigger_is_detected_or_reminder (fun _ => nth 0 auto_delivery_keywords [])
           PyNone eq_refl).
Defined.

Lemma py_re_search_digits re v g :
  group_chars py_isdecimal re -> (1 <= group_min re)%nat ->
  py_re_search re v = Ok (Some g) ->
  g <> [] /\ Forall (fun c => py_isdecimal c = true) g.
Proof.
  intros Hc Hm. destruct v; try discriminate. simpl. intros [= H].
  destruct (re_search_group _ _ _ _ Hc H) as [Hall Hlen].
  split; [|done]. intros ->. simpl in Hlen. lia.
Qed.

Lemma button_patterns_group :
  (group_chars py_isdecimal re_button_orderId /\ group_min re_button_orderId = 1%nat)
  /\ (group_chars py_isdecimal re_main_order_detail
      /\ group_min re_main_order_detail = 1%nat).
Proof.
  split; (split; [|reflexivity]);
    unfold group_chars; repeat (constructor; [simpl; try discriminate; auto|]);
    constructor.
Qed.

Section ExtractionFacts.
Variable json_loads : pyvalue -> result pyvalue.
Variable py_str : pyvalue -> ustring.

Lemma from_card_button_digits v g :
  from_card_button json_loads v = Ok (Some g) ->
  g <> [] /\ Forall (fun c => py_isdecimal c = true) g.
Proof.
  destruct button_patterns_group as [[Hb1 Hb2] [Hm1 Hm2]].
  unfold from_card_button.
  destruct (json_loads v) as [content_data|]; simpl; [|discriminate].
  destruct (card_main content_data) as [main|]; simpl; [|discriminate].
  destruct (py_get main key_exContent empty_dict) as [ex|]; simpl; [|discriminate].
  destruct (py_get ex key_button empty_dict) as [button|]; simpl; [|discriminate].
  destruct (py_get button key_targetUrl empty_str) as [target_url|]; simpl; [|discriminate].
  assert (Hfirst : forall o,
            (if py_truthy target_url
             then py_re_search re_button_orderId target_url else Ok None) = Ok (Some o) ->
            o <> [] /\ Forall (fun c => py_isdecimal c = true) o).
  { intros o. destruct (py_truthy target_url); [|discriminate].
    apply py_re_search_digits; [done|lia]. }
  destruct (if py_truthy target_url then _ else _) as [order_id|]; simpl; [|discriminate].
  destruct order_id as [o|].
  - destruct (Hfirst o eq_refl) as [Hne Hall].
    destruct o as [|x o]; [done|]. simpl. by intros [= <-].
  - simpl.
    destruct (py_get main key_targetUrl empty_str) as [main_target_url|]; simpl;
      [|discriminate].
    destruct (py_truthy main_target_url); [|discriminate].
    destruct (py_re_search re_main_order_detail main_target_url) as [[o|]|] eqn:E;
      simpl; try discriminate.
    intros [= <-]. eapply py_re_search_digits; [exact Hm1|lia|exact E].
Qed.

(** X9: an order id returned by [_extract_order_id] is a non-empty run
    of decimal digits, whichever of the button URL, the card URL, the
    dynamic-operation URL or the text patterns produced it. *)
Theorem extracted_id_is_numeric message g :
  _extract_order_id json_loads py_str message = Ok (Some g) ->
  g <> [] /\ Forall (fun c => py_isdecimal c = true) g.
Proof.
  unfold _extract_order_id, structured_extraction.
  destruct (content_json_str_of message) as [cjs|]; simpl; [|discriminate].
  assert (Hscan : forall o, regex_fallback py_str message = Some o ->
            o <> [] /\ Forall (fun c => py_isdecimal c = true) o).
  { intros o Ho. unfold regex_fallback in Ho.
    destruct (scan_patterns_group _ _ _ patterns_group Ho) as [Hlen Hall].
    split; [|done]. intros ->. simpl in Hlen. lia. }
  destruct (py_truthy cjs); simpl.
  - destruct (from_card_button json_loads cjs) as [[o|]|] eqn:E; simpl.
    + destruct (from_card_button_digits _ _ E) as [Hne Hall].
      destruct o as [|x o]; [done|]. simpl. by intros [= <-].
    + destruct (regex_fallback py_str message) as [o|] eqn:Ho; [|discriminate].
      intros [= <-]. by apply Hscan.
    + destruct (regex_fallback py_str message) as [o|] eqn:Ho; [|discriminate].
      intros [= <-]. by apply Hscan.
  - destruct (regex_fallback py_str message) as [o|] eqn:Ho; [|discriminate].
    intros [= <-]. by apply Hscan.
Qed.

(** X10: when the card payload of a message is present but cannot be
    parsed as JSON, or parses to something that is not a dict,
    [_extract_order_id] returns what the text patterns find in
    [str(message)]. *)
Theorem unreadable_card_payload_falls_back message v :
  content_json_str_of message = Ok v ->
  py_truthy v = true ->
  (exists e, json_loads v = Raise e)
  \/ (exists j, json_loads v = Ok j /\ isinstance_dict j = false) ->
  _extract_order_id json_loads py_str message
  = Ok (scan_patterns patterns (py_str message)).
Proof.
  intros Hc Ht Hbad.
  assert (Hb : exists e, from_card_button json_loads v = Raise e).
  { unfold from_card_button. destruct Hbad as [[e ->]|(j & -> & Hj)]; [by exists e|].
    exists AttributeError. by destruct j. }
  destruct Hb as [e Hb].
  unfold _extract_order_id, structured_extraction, regex_fallback.
  rewrite Hc. cbn [bind]. rewrite Ht, Hb.
  generalize (scan_patterns patterns (py_str message)). by intros [g|].
Qed.
End ExtractionFacts.

Lemma extracted_id_is_numeric_witness :
  replicate 10 50%N <> [] /\ Forall (fun c => py_isdecimal c = true) (replicate 10 50%N).
Proof.
  exact (extracted_id_is_numeric no_json (fun _ => str_conflicting) (PyDict [])
           (replicate 10 50%N) eq_refl).
Defined.

Lemma unreadable_card_payload_falls_back_witness :
  _extract_order_id no_json (fun _ => str_conflicting) message_with_payload
  = Ok (Some (replicate 10 50%N)).
Proof.
  exact (unreadable_card_payload_falls_back no_json (fun _ => str_conflicting)
           message_with_payload (PyStr [120%N]) eq_refl eq_refl
           (or_introl (ex_intro _ JSONDecodeError eq_refl))).
Defined.

(** ** Maintenance of rules and cards *)

Lemma keyword_result_row json_loads fault db kw ds d :
  get_delivery_rules_by_keyword json_loads fault db kw = Ok ds -> d ∈ ds ->
  exists dr c,
    dr ∈ delivery_rules db /\ c ∈ cards db /\ Card.id c = DeliveryRule.card_id dr
    /\ sql_holds (where_enabled_and_like kw (dr, Some c)) = true
    /\ keyword_row json_loads (dr, Some c) = Ok d.
Proof.
  intros Hres Hd.
  apply keyword_result_cases in Hres as [->|HF]; [by apply not_elem_of_nil in Hd|].
  apply list_elem_of_lookup in Hd as [i Hi].
  destruct (Forall2_lookup_r _ _ _ _ _ HF Hi) as ([dr oc] & Hr & Hp).
  apply list_elem_of_lookup_2, select_elem in Hr as [Hw Hj].
  pose proof Hw as Hw'.
  apply enabled_and_like_holds in Hw' as (_ & Hce & _). simpl in Hce.
  destruct oc as [c|]; [|discriminate].
  apply left_join_elem in Hj as (Hdr & Hc & Hid).
  by exists dr, c.
Qed.

Lemma update_result_inv qf cf now db rid k c n e dsc u db' r :
  update_delivery_rule qf cf now db rid k c n e dsc u = (db', r) ->
  (r = Ok true /\ exists rule,
     List.find (rule_selected rid u) (delivery_rules db) = Some rule
     /\ flush_rule now rule (assign_rule k c n e dsc) db = Ok db')
  \/ (r <> Ok true /\ db' = db).
Proof.
  unfold update_delivery_rule, session_execute.
  destruct qf; simpl; [intros [= <- <-]; by right|].
  destruct (List.find _ (delivery_rules db)) as [rule|] eqn:Hf;
    [|intros [= <- <-]; by right].
  destruct (flush_rule now rule _ db) as [db1|] eqn:Hfl; simpl;
    [|intros [= <- <-]; by right].
  destruct cf; simpl; intros [= <- <-]; [by right|].
  left. split; [done|]. by exists rule.
Qed.

Lemma find_selected rid u rules rule :
  List.find (rule_selected rid u) rules = Some rule ->
  rule ∈ rules /\ DeliveryRule.id rule = rid /\ owned_by u rule = true.
Proof.
  intros H. apply find_some in H as [Hin H].
  apply andb_true_iff in H as [H1 H2].
  split_and!; [by apply list_elem_of_In|lia|done].
Qed.

Lemma flush_rule_rows now rule assign db db' dr' :
  flush_rule now rule assign db = Ok db' -> dr' ∈ delivery_rules db' ->
  (dr' ∈ delivery_rules db
   /\ (assign rule = rule \/ DeliveryRule.id dr' <> DeliveryRule.id rule))
  \/ exists dr, dr ∈ delivery_rules db /\ DeliveryRule.id dr = DeliveryRule.id rule
                /\ dr' = touch_rule now (assign dr).
Proof.
  unfold flush_rule. case_bool_decide; [intros [= <-]; left; by split; [|left]|].
  destruct (_ && _); [discriminate|]. intros [= <-]. simpl.
  intros (dr & -> & Hdr)%list_elem_of_fmap.
  destruct (DeliveryRule.id dr =? DeliveryRule.id rule) eqn:E.
  - right. exists dr. split_and!; [done|lia|done].
  - left. split; [done|right; lia].
Qed.

Lemma flush_rule_cards now rule assign db db' :
  flush_rule now rule assign db = Ok db' -> cards db' = cards db.
Proof.
  unfold flush_rule. case_bool_decide; [by intros [= <-]|].
  destruct (_ && _); [discriminate|]. by intros [= <-].
Qed.

Section MaintenanceFacts.
Variable json_loads : pyvalue -> result pyvalue.

(** X12: after [update_delivery_rule] set [enabled=False] on a rule and
    returned [True], [get_delivery_rules_by_keyword] returns that rule for
    no text. *)
Theorem disabled_rule_is_never_matched qf cf now db rid k c n dsc u db' fault kw ds d :
  NoDup (DeliveryRule.id <$> delivery_rules db) ->
  update_delivery_rule qf cf now db rid k c n (Some false) dsc u = (db', Ok true) ->
  get_delivery_rules_by_keyword json_loads fault db' kw = Ok ds ->
  d ∈ ds -> RuleDict.id d <> rid.
Proof.
  intros Hnd Hup Hres Hd Hid.
  apply update_result_inv in Hup as [[_ (rule & Hf & Hfl)]|[Hne _]]; [|done].
  apply find_selected in Hf as (Hrule & Hrid & _).
  destruct (keyword_result_row _ _ _ _ _ _ Hres Hd) as (dr' & c' & Hdr' & _ & _ & Hw & Hp).
  apply enabled_and_like_holds in Hw as (He & _). simpl in He.
  apply keyword_row_built in Hp as (Hdi & _). simpl in Hdi.
  destruct (flush_rule_rows _ _ _ _ _ _ Hfl Hdr')
    as [[Hold [Hsame|Hother]]|(dr & Hdr & Hdrid & ->)].
  - assert (dr' = rule) as -> by (eapply NoDup_fmap_eq; eauto; congruence).
    rewrite <- Hsame in He. simpl in He. discriminate.
  - congruence.
  - simpl in He. discriminate.
Qed.
End MaintenanceFacts.

Lemma disabled_rule_is_never_matched_witness :
  exists db',
    update_delivery_rule None None 9 phone_db 1 None None None (Some false) None None
    = (db', Ok true)
    /\ forall ds d,
         get_delivery_rules_by_keyword no_json None db' str_you_shoujike_ma = Ok ds ->
         d ∈ ds -> RuleDict.id d <> 1.
Proof.
  eexists.
  assert (H : update_delivery_rule None None 9 phone_db 1 None None None (Some false)
                None None = (_, Ok true)) by (vm_compute; reflexivity).
  split; [exact H|]. intros ds d.
  apply (disabled_rule_is_never_matched no_json None None 9 phone_db 1 None None None
           None None _ None str_you_shoujike_ma ds d); [|exact H].
  compute_done.
Defined.

Lemma flush_rule_keeps now rule assign db db' dr :
  flush_rule now rule assign db = Ok db' -> dr ∈ delivery_rules db ->
  DeliveryRule.id dr <> DeliveryRule.id rule -> dr ∈ delivery_rules db'.
Proof.
  unfold flush_rule. case_bool_decide; [by intros [= <-]|].
  destruct (_ && _); [discriminate|]. intros [= <-] Hdr Hne. simpl.
  apply list_elem_of_fmap. exists dr. split; [|done].
  destruct (DeliveryRule.id dr =? DeliveryRule.id rule) eqn:E; [lia|done].
Qed.

Lemma owned_by_user u dr : owned_by (Some u) dr = true -> DeliveryRule.user_id dr = Some u.
Proof. simpl. by intros ?%bool_decide_eq_true. Qed.

Lemma delete_rule_result_inv qf cf db rid u db' r :
  delete_delivery_rule qf cf db rid u = (db', r) ->
  (r = Ok true
   /\ delivery_rules db'
      = List.filter (fun dr => negb (rule_selected rid u dr)) (delivery_rules db)
   /\ cards db' = cards db
   /\ exists dr, dr ∈ delivery_rules db /\ rule_selected rid u dr = true)
  \/ (r <> Ok true /\ db' = db).
Proof.
  unfold delete_delivery_rule, session_execute.
  destruct qf; simpl; [intros [= <- <-]; by right|].
  destruct (List.filter _ (delivery_rules db)) as [|dr sel] eqn:E; simpl;
    [intros [= <- <-]; by right|].
  destruct cf; simpl; intros [= <- <-]; [by right|].
  left. split_and!; try done. exists dr.
  assert (Hin : In dr (List.filter (rule_selected rid u) (delivery_rules db)))
    by (rewrite E; by left).
  apply filter_In in Hin as [Hin Hs]. split; [by apply list_elem_of_In|done].
Qed.

Lemma find_filter_head {A} (f : A -> bool) l : List.find f l = head (List.filter f l).
Proof. induction l as [|a l IH]; [done|]. simpl. by destruct (f a). Qed.

Lemma find_app_first {A} (f : A -> bool) l1 l2 :
  List.find f (l1 ++ l2)
  = match List.find f l1 with Some x => Some x | None => List.find f l2 end.
Proof. induction l1 as [|a l1 IH]; [done|]. simpl. by destruct (f a). Qed.

Lemma find_left_join p db :
  List.find (fun r : joined => p r.1) (left_join_cards db)
  = (fun dr => (dr, List.find (fun c => Card.id c =? DeliveryRule.card_id dr) (cards db)))
      <$> List.find p (delivery_rules db).
Proof.
  unfold left_join_cards. induction (delivery_rules db) as [|dr rules IH]; [done|].
  cbn [flat_map]. rewrite find_app_first, IH. clear IH. cbn [List.find fmap option_fmap option_map].
  pose proof (find_filter_head (fun c => Card.id c =? DeliveryRule.card_id dr) (cards db))
    as Hh.
  destruct (List.filter _ (cards db)) as [|c cs]; destruct (p dr) eqn:Hp;
    simpl; rewrite ?Hp; simpl; rewrite ?Hh; try done.
  assert (Hn : List.find (fun r : joined => p r.1) (map (fun c0 => (dr, Some c0)) cs)
               = None).
  { clear Hh. induction cs as [|x cs IHc]; simpl; [done|]. by rewrite Hp. }
  by rewrite Hn.
Qed.

Lemma find_map_same {A} (p : A -> bool) (g : A -> A) l :
  (forall x, p (g x) = p x) -> List.find p (map g l) = g <$> List.find p l.
Proof.
  intros H. induction l as [|a l IH]; [done|]. simpl. rewrite H.
  by destruct (p a).
Qed.

Section IsolationFacts.

(** X13: called with a [user_id], [update_delivery_rule] and
    [delete_delivery_rule] leave every rule of another owner (or of none)
    stored as it is, and [get_delivery_rule_by_id] does not return it. *)
Theorem other_users_rules_are_untouched u db dr :
  NoDup (DeliveryRule.id <$> delivery_rules db) ->
  dr ∈ delivery_rules db -> DeliveryRule.user_id dr <> Some u ->
  (forall qf cf now rid k c n e dsc,
     dr ∈ delivery_rules (update_delivery_rule qf cf now db rid k c n e dsc (Some u)).1)
  /\ (forall qf cf rid,
        dr ∈ delivery_rules (delete_delivery_rule qf cf db rid (Some u)).1)
  /\ (forall fault rid info,
        get_delivery_rule_by_id fault db rid (Some u) = Some info ->
        RuleInfo.id info <> DeliveryRule.id dr).
Proof.
  intros Hnd Hdr Hu. split_and!.
  - intros qf cf now rid k c n e dsc.
    destruct (update_delivery_rule qf cf now db rid k c n e dsc (Some u)) as [db' r] eqn:E.
    apply update_result_inv in E as [[_ (rule & Hf & Hfl)]|[_ ->]]; [|done]. simpl.
    apply find_selected in Hf as (Hrule & Hrid & Ho). apply owned_by_user in Ho.
    eapply flush_rule_keeps; eauto. intros Heq.
    assert (dr = rule) by (eapply NoDup_fmap_eq; eauto). congruence.
  - intros qf cf rid.
    destruct (delete_delivery_rule qf cf db rid (Some u)) as [db' r] eqn:E.
    apply delete_rule_result_inv in E as [(_ & Hr & _)|[_ ->]]; [|done]. simpl.
    rewrite Hr. apply list_elem_of_In, filter_In. split; [by apply list_elem_of_In|].
    unfold rule_selected. simpl. rewrite (bool_decide_eq_false_2 _ Hu).
    by rewrite andb_false_r.
  - intros fault rid info. unfold get_delivery_rule_by_id, session_execute.
    destruct fault; simpl; [discriminate|].
    rewrite (find_left_join (rule_selected rid (Some u))).
    destruct (List.find _ (delivery_rules db)) as [rule|] eqn:Hf; simpl; [|discriminate].
    intros [= <-]. simpl. intros Heq.
    apply find_selected in Hf as (Hrule & Hrid & Ho). apply owned_by_user in Ho.
    assert (rule = dr) by (eapply NoDup_fmap_eq; eauto). congruence.
Qed.
End IsolationFacts.

Lemma other_users_rules_are_untouched_witness :
  sample_rule 1 str_shouji 2 (Some 0)
  ∈ delivery_rules (delete_delivery_rule None None phone_db 1 (Some 7)).1.
Proof.
  refine (proj1 (proj2 (other_users_rules_are_untouched 7 phone_db
                          (sample_rule 1 str_shouji 2 (Some 0)) _ _ _)) None None 1).
  - compute_done.
  - repeat constructor.
  - discriminate.
Defined.

Lemma delete_card_result_inv qf cf db cid db' r :
  delete_card qf cf db cid = (db', r) ->
  (r = Ok true
   /\ delivery_rules db'
      = List.filter (fun dr => negb (DeliveryRule.card_id dr =? cid)) (delivery_rules db)
   /\ cards db' = List.filter (fun c => negb (Card.id c =? cid)) (cards db)
   /\ card_exists cid db = true)
  \/ (r <> Ok true /\ db' = db /\ (r = Ok false -> card_exists cid db = false)).
Proof.
  unfold delete_card, session_execute.
  destruct qf; simpl; [intros [= <- <-]; by right|].
  destruct (List.filter _ (cards db)) as [|c sel] eqn:E; simpl.
  - intros [= <- <-]. right. split_and!; try done. intros _.
    unfold card_exists. destruct (existsb _ (cards db)) eqn:Ex; [|done].
    apply existsb_exists in Ex as (c & Hc & Hid).
    assert (Hin : In c (List.filter (fun c => Card.id c =? cid) (cards db)))
      by (apply filter_In; by split).
    by rewrite E in Hin.
  - destruct cf; simpl; intros [= <- <-]; [by right|].
    left. split_and!; try done.
    assert (Hin : In c (List.filter (fun c => Card.id c =? cid) (cards db)))
      by (rewrite E; by left).
    apply filter_In in Hin as [Hin Hs]. apply existsb_exists. by exists c.
Qed.

Section DeletionFacts.
Variable json_loads : pyvalue -> result pyvalue.

(** X14: after [delete_card] returned [True] no card and no rule with
    that card id is stored, all other cards and rules are kept, the
    matcher returns that card for no text, and [consume_batch_data] finds
    no stock under that id. *)
Theorem deleted_card_is_gone qf cf db cid db' :
  delete_card qf cf db cid = (db', Ok true) ->
  (forall c, c ∈ cards db' -> Card.id c <> cid)
  /\ (forall dr, dr ∈ delivery_rules db' -> DeliveryRule.card_id dr <> cid)
  /\ (forall c, c ∈ cards db -> Card.id c <> cid -> c ∈ cards db')
  /\ (forall dr, dr ∈ delivery_rules db -> DeliveryRule.card_id dr <> cid ->
                 dr ∈ delivery_rules db')
  /\ (forall fault kw ds d,
        get_delivery_rules_by_keyword json_loads fault db' kw = Ok ds ->
        d ∈ ds -> RuleDict.card_id d <> cid)
  /\ (forall now, consume_batch_data None None now db' cid = (db', None)).
Proof.
  intros H. apply delete_card_result_inv in H as [(_ & Hr & Hc & _)|[Hne _]]; [|done].
  assert (Hcards : forall c, c ∈ cards db' -> Card.id c <> cid).
  { intros c. rewrite Hc. intros [_ Hn]%list_elem_of_In%filter_In. lia. }
  split_and!.
  - exact Hcards.
  - intros dr. rewrite Hr. intros [_ Hn]%list_elem_of_In%filter_In. lia.
  - intros c Hin Hn. rewrite Hc. apply list_elem_of_In, filter_In.
    split; [by apply list_elem_of_In|]. apply negb_true_iff. lia.
  - intros dr Hin Hn. rewrite Hr. apply list_elem_of_In, filter_In.
    split; [by apply list_elem_of_In|]. apply negb_true_iff. lia.
  - intros fault kw ds d Hres Hd Heq.
    destruct (keyword_result_row _ _ _ _ _ _ Hres Hd) as (dr & c & _ & Hcin & _ & _ & Hp).
    apply keyword_row_built in Hp as (_ & _ & Hdc & _). simpl in Hdc.
    destruct (keyword_result_row _ _ _ _ _ _ Hres Hd) as (dr2 & c2 & _ & Hc2 & Hid2 & _ & Hp2).
    apply keyword_row_built in Hp2 as (_ & _ & Hdc2 & _). simpl in Hdc2.
    apply (Hcards c2 Hc2). congruence.
  - intros now. unfold consume_batch_data. simpl.
    destruct (first_data_card cid db') as [card|] eqn:E; [|done].
    apply first_data_card_id in E as [Hid Hin]. by apply Hcards in Hin.
Qed.
End DeletionFacts.

Lemma deleted_card_is_gone_witness :
  exists db',
    delete_card None None phone_db 2 = (db', Ok true)
    /\ (forall dr, dr ∈ delivery_rules db' -> DeliveryRule.card_id dr <> 2)
    /\ forall ds d,
         get_delivery_rules_by_keyword no_json None db' str_you_shoujike_ma = Ok ds ->
         d ∈ ds -> RuleDict.card_id d <> 2.
Proof.
  eexists.
  assert (H : delete_card None None phone_db 2 = (_, Ok true))
    by (vm_compute; reflexivity).
  split; [exact H|].
  destruct (deleted_card_is_gone no_json None None phone_db 2 _ H)
    as (_ & H2 & _ & _ & H5 & _).
  split; [exact H2|]. intros ds d. apply (H5 None).
Defined.

Lemma card_exists_elem cid db :
  card_exists cid db = true <-> exists c, c ∈ cards db /\ Card.id c = cid.
Proof.
  unfold card_exists. rewrite existsb_exists. split.
  - intros (c & Hc & Hid). exists c. split; [by apply list_elem_of_In|lia].
  - intros (c & Hc & Hid). exists c. split; [by apply list_elem_of_In|lia].
Qed.

Lemma card_exists_same_cards cid db db' :
  cards db' = cards db -> card_exists cid db' = card_exists cid db.
Proof. unfold card_exists. by intros ->. Qed.

Lemma card_exists_update_card cid pk content now db :
  card_exists cid (update_card pk (set_data_content content now) db) = card_exists cid db.
Proof.
  unfold card_exists, update_card. simpl.
  induction (cards db) as [|c cs IH]; [done|]. simpl. rewrite IH. f_equal.
  by destruct (Card.id c =? pk).
Qed.

Lemma create_result_inv cf new_id now db kw cid n e dsc u db' r :
  create_delivery_rule cf new_id now db kw cid n e dsc u = (db', r) ->
  (r = Ok new_id
   /\ delivery_rules db'
      = delivery_rules db
        ++ [DeliveryRule.mk new_id kw cid (Some n) (Some e) dsc (Some 0) u
                            (Some now) (Some now)]
   /\ cards db' = cards db
   /\ card_exists cid db = true
   /\ (forall dr, dr ∈ delivery_rules db -> DeliveryRule.id dr <> new_id))
  \/ ((exists x, r = Raise x) /\ db' = db).
Proof.
  unfold create_delivery_rule.
  destruct (existsb _ (delivery_rules db)) eqn:Ex; simpl;
    [intros [= <- <-]; right; eauto|].
  destruct (card_exists cid db) eqn:Ec; simpl; [|intros [= <- <-]; right; eauto].
  destruct cf; simpl; intros [= <- <-]; [right; eauto|].
  left. split_and!; try done. intros dr Hdr Hid.
  assert (existsb (fun dr => DeliveryRule.id dr =? new_id) (delivery_rules db) = true).
  { apply existsb_exists. exists dr. split; [by apply list_elem_of_In|lia]. }
  congruence.
Qed.

Section RoundTrips.
Variable json_loads : pyvalue -> result pyvalue.

End RoundTrips.


(** X16: after [update_delivery_rule] returned [True],
    [get_delivery_rule_by_id] with the same id and owner returns the rule
    with every given field at its new value and every field given as
    [None] at its old one; [delivery_times] and [created_at] are kept. *)
Theorem updated_rule_reads_back qf cf now db rid k c n e dsc u db' :
  update_delivery_rule qf cf now db rid k c n e dsc u = (db', Ok true) ->
  exists rule info,
    List.find (rule_selected rid u) (delivery_rules db) = Some rule
    /\ get_delivery_rule_by_id None db' rid u = Some info
    /\ RuleInfo.id info = rid
    /\ RuleInfo.keyword info = default (DeliveryRule.keyword rule) k
    /\ RuleInfo.card_id info = default (DeliveryRule.card_id rule) c
    /\ RuleInfo.delivery_count info = assigned n (DeliveryRule.delivery_count rule)
    /\ RuleInfo.enabled info = py_bool (assigned e (DeliveryRule.enabled rule))
    /\ RuleInfo.description info = assigned dsc (DeliveryRule.description rule)
    /\ RuleInfo.delivery_times info = DeliveryRule.delivery_times rule
    /\ RuleInfo.created_at info = DeliveryRule.created_at rule.
Proof.
  intros H. apply update_result_inv in H as [[_ (rule & Hf & Hfl)]|[Hne _]]; [|done].
  exists rule. destruct (find_selected _ _ _ _ Hf) as (Hin & Hid & Ho).
  unfold get_delivery_rule_by_id, session_execute. simpl.
  rewrite (find_left_join (rule_selected rid u)).
  revert Hfl. unfold flush_rule. case_bool_decide as Hsame.
  - intros [= <-]. rewrite Hf. simpl. eexists. split_and!; try done; simpl.
    all: rewrite <- Hsame at 1; done.
  - destruct (_ && _); [discriminate|]. intros [= <-]. simpl.
    rewrite find_map_same, Hf.
    + simpl. rewrite Z.eqb_refl. simpl. eexists. split_and!; done.
    + intros x. unfold rule_selected. by destruct (DeliveryRule.id x =? _), u.
Qed.

Lemma updated_rule_reads_back_witness :
  exists db' info,
    update_delivery_rule None None 9 phone_db 1 (Some str_a) None None None None None
    = (db', Ok true)
    /\ get_delivery_rule_by_id None db' 1 None = Some info
    /\ RuleInfo.keyword info = str_a /\ RuleInfo.card_id info = 2.
Proof.
  eexists.
  assert (H : update_delivery_rule None None 9 phone_db 1 (Some str_a) None None None
                None None = (_, Ok true)) by (vm_compute; reflexivity).
  destruct (updated_rule_reads_back None None 9 phone_db 1 (Some str_a) None None None
              None None _ H) as (rule & info & Hf & Hg & _ & Hk & Hc & _).
  exists info. split; [exact H|]. split; [exact Hg|].
  injection Hf as <-. split; [exact Hk|exact Hc].
Defined.

(** X15: when every rule points to a stored card, this still holds
    after [update_delivery_rule], [delete_delivery_rule], [delete_card],
    [create_delivery_rule], [consume_batch_data] and
    [increment_delivery_times], whatever their arguments and result. *)
Theorem rules_keep_their_cards db :
  rules_have_cards db ->
  (forall qf cf now rid k c n e dsc u,
     rules_have_cards (update_delivery_rule qf cf now db rid k c n e dsc u).1)
  /\ (forall qf cf rid u, rules_have_cards (delete_delivery_rule qf cf db rid u).1)
  /\ (forall qf cf cid, rules_have_cards (delete_card qf cf db cid).1)
  /\ (forall cf new_id now kw cid n e dsc u,
        rules_have_cards (create_delivery_rule cf new_id now db kw cid n e dsc u).1)
  /\ (forall qf cf now cid, rules_have_cards (consume_batch_data qf cf now db cid).1)
  /\ (forall qf cf now rid, rules_have_cards (increment_delivery_times qf cf now db rid)).
Proof.
  intros Hdb. split_and!.
  - intros qf cf now rid k c n e dsc u.
    destruct (update_delivery_rule qf cf now db rid k c n e dsc u) as [db' r] eqn:E.
    apply update_result_inv in E as [[_ (rule & Hf & Hfl)]|[_ ->]]; [|done]. simpl.
    destruct (find_selected _ _ _ _ Hf) as (Hin & _ & _).
    intros dr' Hdr'. rewrite (card_exists_same_cards _ db db' (flush_rule_cards _ _ _ _ _ Hfl)).
    revert Hfl Hdr'. unfold flush_rule. case_bool_decide as Hsame; [intros [= <-]; auto|].
    destruct (negb (_ =? _)) eqn:Hc; simpl.
    + destruct (card_exists _ db) eqn:Hex; simpl; [|discriminate].
      intros [= <-]. simpl. intros (dr & -> & Hdr)%list_elem_of_fmap.
      destruct (DeliveryRule.id dr =? DeliveryRule.id rule); [|auto]. simpl.
      destruct c as [c|]; simpl in *; [done|].
      by rewrite Z.eqb_refl in Hc.
    + intros [= <-]. simpl. intros (dr & -> & Hdr)%list_elem_of_fmap.
      destruct (DeliveryRule.id dr =? DeliveryRule.id rule); [|auto]. simpl.
      destruct c as [c|]; simpl in *; [|auto].
      apply negb_false_iff, Z.eqb_eq in Hc. rewrite Hc. auto.
  - intros qf cf rid u.
    destruct (delete_delivery_rule qf cf db rid u) as [db' r] eqn:E.
    apply delete_rule_result_inv in E as [(_ & Hr & Hc & _)|[_ ->]]; [|done]. simpl.
    intros dr. rewrite Hr, (card_exists_same_cards _ db db' Hc).
    intros [Hin _]%list_elem_of_In%filter_In. by apply Hdb, list_elem_of_In.
  - intros qf cf cid.
    destruct (delete_card qf cf db cid) as [db' r] eqn:E.
    apply delete_card_result_inv in E as [(_ & Hr & Hc & _)|(_ & -> & _)]; [|done]. simpl.
    intros dr. rewrite Hr. intros [Hin Hn]%list_elem_of_In%filter_In.
    apply list_elem_of_In, Hdb, card_exists_elem in Hin as (card & Hcard & Hid).
    apply card_exists_elem. exists card. split; [|done].
    rewrite Hc. apply list_elem_of_In, filter_In. split; [by apply list_elem_of_In|].
    by rewrite Hid.
  - intros cf new_id now kw cid n e dsc u.
    destruct (create_delivery_rule cf new_id now db kw cid n e dsc u) as [db' r] eqn:E.
    apply create_result_inv in E as [(_ & Hr & Hc & Hex & _)|[_ ->]]; [|done]. simpl.
    intros dr. rewrite Hr, (card_exists_same_cards _ db db' Hc).
    intros [Hin| ->%list_elem_of_singleton]%elem_of_app; [auto|done].
  - intros qf cf now cid.
    destruct (consume_cases qf cf now db cid) as [->|(card & content & l & rest & _ & _ & _ & _ & _ & ->)];
      [done|]. simpl.
    intros dr Hdr. rewrite card_exists_update_card. auto.
  - intros qf cf now rid. unfold increment_delivery_times, session_execute.
    destruct qf; simpl; [done|].
    destruct (List.find _ (delivery_rules db)) as [rule|]; [|done].
    destruct cf; simpl; [done|].
    intros dr' (dr & -> & Hdr)%list_elem_of_fmap.
    rewrite (card_exists_same_cards _ db) by done.
    destruct (DeliveryRule.id dr =? DeliveryRule.id rule); simpl; auto.
Qed.

Lemma rules_keep_their_cards_witness :
  rules_have_cards (delete_card None None phone_db 2).1
  /\ rules_have_cards
       (update_delivery_rule None None 9 phone_db 1 None (Some 1) None None None None).1.
Proof.
  assert (Hdb : rules_have_cards phone_db).
  { intros dr Hdr. apply list_elem_of_In in Hdr. simpl in Hdr.
    destruct Hdr as [<-|[<-|[]]]; reflexivity. }
  destruct (rules_keep_their_cards phone_db Hdb) as (H1 & _ & H3 & _).
  split; [apply H3|apply H1].
Defined.

(** ** Orders *)

Lemma first_order_elem oid st o :
  first_order oid st = Some o -> o ∈ orders st /\ Order.order_id o = oid.
Proof.
  unfold first_order. intros [Hin H]%find_some.
  split; [by apply list_elem_of_In|]. by apply bool_decide_eq_true in H.
Qed.

Lemma first_order_none oid st o :
  first_order oid st = None -> o ∈ orders st -> Order.order_id o <> oid.
Proof.
  unfold first_order. intros H Hin Heq.
  apply list_elem_of_In in Hin.
  pose proof (find_none _ _ H _ Hin) as Hn. simpl in Hn.
  by apply bool_decide_eq_false in Hn.
Qed.

Lemma upsert_result_inv qf cf now st oid i b sn sv q a s ck bg st' r :
  insert_or_update_order qf cf now st oid i b sn sv q a s ck bg = (st', r) ->
  (r = true /\ (truthy ck = true -> cookie_known ck st = true)
   /\ ((exists existing,
          first_order oid st = Some existing
          /\ flush_order now existing (assign_order i b sn sv q a s ck bg) st = Ok st')
       \/ (first_order oid st = None /\ cookie_known ck st = true
           /\ st' = mk_order_tables
                      (orders st
                       ++ [Order.mk oid i b sn sv q a (Some (status_or_unknown s)) ck
                                    (Some (bargain_flag bg)) (Some now) (Some now)])
                      (cookies st))))
  \/ (r = false /\ st' = st).
Proof.
  unfold insert_or_update_order, execute_on, insert_order.
  destruct qf as [e|]; simpl.
  { destruct (truthy ck); simpl; intros [= <- <-]; by right. }
  assert (Hk : (if truthy ck then Ok (cookie_known ck st) else Ok true)
               = Ok (if truthy ck then cookie_known ck st else true))
    by (by destruct (truthy ck)).
  rewrite Hk. clear Hk. cbn [bind].
  destruct (if truthy ck then cookie_known ck st else true) eqn:Hck; simpl;
    [|intros [= <- <-]; by right].
  assert (Hck' : truthy ck = true -> cookie_known ck st = true)
    by (intros Ht; by rewrite Ht in Hck).
  destruct (first_order oid st) as [existing|] eqn:Hf.
  - destruct (flush_order now existing _ st) as [st1|] eqn:Hfl; simpl;
      [|intros [= <- <-]; by right].
    destruct cf; simpl; intros [= <- <-]; [by right|].
    left. split_and!; [done|done|left; eauto].
  - simpl. destruct (cookie_known ck st) eqn:Hkn; simpl; [|intros [= <- <-]; by right].
    destruct cf; simpl; intros [= <- <-]; [by right|].
    left. split_and!; [done|done|right; done].
Qed.

Lemma delete_order_result_inv qf cf st oid st' r :
  delete_order qf cf st oid = (st', r) ->
  (r = true
   /\ orders st'
      = List.filter (fun o => negb (ustring_eqb (Order.order_id o) oid)) (orders st)
   /\ cookies st' = cookies st
   /\ exists o, first_order oid st = Some o)
  \/ (r = false /\ st' = st /\ (qf = None -> cf = None -> first_order oid st = None)).
Proof.
  unfold delete_order, execute_on, first_order.
  destruct qf; simpl; [intros [= <- <-]; by right|].
  rewrite find_filter_head.
  destruct (List.filter _ (orders st)) as [|o sel] eqn:E; simpl;
    [intros [= <- <-]; by right|].
  destruct cf; simpl; intros [= <- <-]; [|left; split_and!; eauto].
  right. split_and!; done.
Qed.

Lemma find_order_map oid (g : Order.t -> Order.t) l :
  (forall o, Order.order_id (g o) = Order.order_id o) ->
  List.find (fun o => ustring_eqb (Order.order_id o) oid) (map g l)
  = g <$> List.find (fun o => ustring_eqb (Order.order_id o) oid) l.
Proof. intros H. apply find_map_same. intros o. by rewrite H. Qed.

(** X18: after [insert_or_update_order] returned [True],
    [get_order_by_id] returns the order with every given field at the
    given value and every field given as [None] as stored before (empty
    for a new order, whose status falls back to ['unknown']). *)
Theorem stored_order_reads_back qf cf now st oid i b sn sv q a s ck bg st' :
  insert_or_update_order qf cf now st oid i b sn sv q a s ck bg = (st', true) ->
  exists info,
    get_order_by_id None st' oid = Some info
    /\ OrderInfo.order_id info = oid
    /\ OrderInfo.item_id info = assigned i (first_order oid st ≫= Order.item_id)
    /\ OrderInfo.buyer_id info = assigned b (first_order oid st ≫= Order.buyer_id)
    /\ OrderInfo.spec_name info = assigned sn (first_order oid st ≫= Order.spec_name)
    /\ OrderInfo.spec_value info = assigned sv (first_order oid st ≫= Order.spec_value)
    /\ OrderInfo.quantity info = assigned q (first_order oid st ≫= Order.quantity)
    /\ OrderInfo.amount info = assigned a (first_order oid st ≫= Order.amount)
    /\ OrderInfo.cookie_id info = assigned ck (first_order oid st ≫= Order.cookie_id)
    /\ OrderInfo.status info
       = match first_order oid st with
         | Some o => assigned s (Order.order_status o)
         | None => Some (status_or_unknown s)
         end
    /\ OrderInfo.is_bargain info
       = match bg, first_order oid st with
         | Some flag, _ => flag
         | None, Some o => flag_bool (Order.is_bargain o)
         | None, None => false
         end.
Proof.
  intros H.
  apply upsert_result_inv in H
    as [(_ & _ & [(ex & Hf & Hfl)|(Hf & _ & ->)])|[? _]]; [| |done].
  - destruct (first_order_elem _ _ _ Hf) as [Hin Hid]. rewrite Hf. simpl.
    unfold get_order_by_id, execute_on, first_order.
    revert Hfl. unfold flush_order. case_bool_decide as Hsame.
    + intros [= <-]. unfold first_order in Hf. rewrite Hf. simpl.
      eexists. split_and!; try done.
      all: rewrite <- Hsame at 1; simpl; try done.
      by destruct bg as [[]|].
    + destruct (_ && _); [discriminate|]. intros [= <-]. simpl.
      unfold first_order in Hf. rewrite Hid.
      rewrite find_order_map, Hf.
      * simpl. rewrite Hid. unfold ustring_eqb at 1.
        rewrite bool_decide_eq_true_2 by done. simpl.
        eexists. split_and!; try done. simpl. by destruct bg as [[]|].
      * intros o. by destruct (ustring_eqb (Order.order_id o) oid).
  - rewrite Hf. simpl. unfold get_order_by_id, execute_on, first_order. simpl.
    unfold first_order in Hf. rewrite find_app_first, Hf. simpl.
    unfold ustring_eqb. rewrite bool_decide_eq_true_2 by done. simpl.
    eexists. split_and!; try done; simpl.
    + by destruct i. + by destruct b. + by destruct sn. + by destruct sv.
    + by destruct q. + by destruct a. + by destruct ck.
    + by destruct bg as [[]|].
Qed.

Lemma stored_order_reads_back_witness :
  exists st' info,
    insert_or_update_order None None 9 sample_orders str_order_key None (Some str_buyer)
      None None None None None None None = (st', true)
    /\ get_order_by_id None st' str_order_key = Some info
    /\ OrderInfo.item_id info = Some str_a
    /\ OrderInfo.buyer_id info = Some str_buyer.
Proof.
  eexists.
  assert (H : insert_or_update_order None None 9 sample_orders str_order_key None
                (Some str_buyer) None None None None None None None = (_, true))
    by (vm_compute; reflexivity).
  destruct (stored_order_reads_back None None 9 sample_orders str_order_key None
              (Some str_buyer) None None None None None None None _ H)
    as (info & Hg & _ & Hi & Hb & _).
  exists info. split; [exact H|]. split; [exact Hg|]. split; [exact Hi|exact Hb].
Defined.

(** X19: [insert_or_update_order] with a non-empty [cookie_id] that is
    no key of the [cookies] table returns [False] and stores nothing. *)
Theorem unknown_cookie_is_refused qf cf now st oid i b sn sv q a s c bg :
  c <> [] -> c ∉ cookies st ->
  insert_or_update_order qf cf now st oid i b sn sv q a s (Some c) bg = (st, false).
Proof.
  intros Hne Hc.
  destruct (insert_or_update_order qf cf now st oid i b sn sv q a s (Some c) bg)
    as [st' r] eqn:E.
  apply upsert_result_inv in E as [(_ & Hk & _)|[-> ->]]; [|done].
  destruct c as [|x c]; [done|]. specialize (Hk eq_refl). simpl in Hk.
  by apply bool_decide_eq_true in Hk.
Qed.

Lemma unknown_cookie_is_refused_witness :
  insert_or_update_order None None 9 sample_orders str_order_key None None None None
    None None None (Some str_buyer) None = (sample_orders, false).
Proof.
  apply unknown_cookie_is_refused.
  - discriminate.
  - compute_done.
Defined.

(** X20: [insert_or_update_order] and [delete_order] keep the order ids
    unique, keep every stored order on a stored cookie (or none), and do
    not touch the [cookies] table. *)
Theorem order_tables_stay_consistent st :
  NoDup (Order.order_id <$> orders st) -> orders_have_cookies st ->
  (forall qf cf now oid i b sn sv q a s ck bg,
     let st' := (insert_or_update_order qf cf now st oid i b sn sv q a s ck bg).1 in
     NoDup (Order.order_id <$> orders st') /\ orders_have_cookies st'
     /\ cookies st' = cookies st)
  /\ (forall qf cf oid,
        let st' := (delete_order qf cf st oid).1 in
        NoDup (Order.order_id <$> orders st') /\ orders_have_cookies st'
        /\ cookies st' = cookies st).
Proof.
  intros Hnd Hfk. split.
  - intros qf cf now oid i b sn sv q a s ck bg.
    destruct (insert_or_update_order qf cf now st oid i b sn sv q a s ck bg)
      as [st' r] eqn:E. simpl.
    apply upsert_result_inv in E
      as [(_ & _ & [(ex & Hf & Hfl)|(Hf & Hk & ->)])|[_ ->]]; [| |done].
    + destruct (first_order_elem _ _ _ Hf) as [Hin Hid].
      revert Hfl. unfold flush_order. case_bool_decide as Hsame; [by intros [= <-]|].
      destruct (negb (bool_decide _) && _) eqn:Hchk; [discriminate|].
      intros [= <-]. simpl. split_and!; [|intros o' (o & -> & Ho)%list_elem_of_fmap|done].
      * rewrite <- list_fmap_compose.
        erewrite list_fmap_ext; [exact Hnd|]. intros _ o _. simpl.
        by destruct (ustring_eqb _ _).
      * unfold cookie_known. simpl.
        destruct (ustring_eqb (Order.order_id o) (Order.order_id ex)) eqn:Heq;
          [|by apply Hfk].
        apply bool_decide_eq_true in Heq.
        assert (o = ex) by (eapply NoDup_fmap_eq; eauto). subst o.
        apply andb_false_iff in Hchk as [Hc|Hc].
        -- apply negb_false_iff, bool_decide_eq_true in Hc. simpl. simpl in Hc.
           rewrite Hc. by apply (Hfk ex).
        -- by apply negb_false_iff in Hc.
    + simpl. split_and!; [| |done].
      * rewrite fmap_app. apply NoDup_app. split_and!; [done| |apply NoDup_singleton].
        intros x (o & -> & Ho)%list_elem_of_fmap [= Heq]%list_elem_of_singleton.
        by apply (first_order_none _ _ _ Hf Ho).
      * intros o [Ho| ->%list_elem_of_singleton]%elem_of_app; [by apply Hfk|done].
  - intros qf cf oid. destruct (delete_order qf cf st oid) as [st' r] eqn:E. simpl.
    apply delete_order_result_inv in E as [(_ & Hr & Hc & _)|(_ & -> & _)]; [|done].
    split_and!; [| |done].
    + rewrite Hr. clear -Hnd. induction (orders st) as [|o l IH]; [done|].
      simpl in *. apply NoDup_cons in Hnd as [Hn Hnd].
      destruct (negb _); [|auto]. simpl. apply NoDup_cons. split; [|auto].
      intros (o' & Heq & [Ho _]%list_elem_of_In%filter_In)%list_elem_of_fmap.
      apply Hn, list_elem_of_fmap. exists o'. split; [done|by apply list_elem_of_In].
    + intros o. rewrite Hr. intros [Ho _]%list_elem_of_In%filter_In.
      apply list_elem_of_In, Hfk in Ho. unfold cookie_known in *. by rewrite Hc.
Qed.

Lemma order_tables_stay_consistent_witness :
  NoDup (Order.order_id
           <$> orders (insert_or_update_order None None 9 sample_orders str_buyer None
                         None None None None None None (Some str_cookie) None).1)
  /\ orders_have_cookies (delete_order None None sample_orders str_order_key).1.
Proof.
  assert (Hnd : NoDup (Order.order_id <$> orders sample_orders)) by compute_done.
  assert (Hfk : orders_have_cookies sample_orders).
  { intros o Ho. apply list_elem_of_In in Ho. simpl in Ho.
    destruct Ho as [<-|[]]. reflexivity. }
  destruct (order_tables_stay_consistent sample_orders Hnd Hfk) as [H1 H2].
  split.
  - exact (proj1 (H1 None None 9 str_buyer None None None None None None None
                     (Some str_cookie) None)).
  - exact (proj1 (proj2 (H2 None None str_order_key))).
Defined.

Lemma filter_of_rest {A} (f : A -> bool) l :
  List.filter f (List.filter (fun x => negb (f x)) l) = [].
Proof.
  induction l as [|x l IH]; [done|]. simpl.
  destruct (f x) eqn:E; simpl; [done|]. by rewrite E.
Qed.

(** X21: after [delete_order] returned [True] the order, which was
    stored, can no longer be read and all other orders are kept; a call
    that returns [False] changes nothing, and without a database fault it
    does so only when no such order was stored. *)
Theorem deleted_order_is_gone qf cf st oid st' r :
  delete_order qf cf st oid = (st', r) ->
  (r = true ->
   (forall fault, get_order_by_id fault st' oid = None)
   /\ (exists info, get_order_by_id None st oid = Some info)
   /\ forall o, o ∈ orders st -> Order.order_id o <> oid -> o ∈ orders st')
  /\ (r = false -> st' = st)
  /\ (r = false -> qf = None -> cf = None -> get_order_by_id None st oid = None).
Proof.
  intros H. apply delete_order_result_inv in H
    as [(-> & Hr & Hc & o & Ho)|(-> & -> & Hn)]; split_and!; try done.
  - intros _. split_and!.
    + intros fault. unfold get_order_by_id, execute_on. destruct fault; [done|].
      unfold first_order. rewrite Hr, find_filter_head.
      by rewrite (filter_of_rest (fun o => ustring_eqb (Order.order_id o) oid)).
    + unfold get_order_by_id, execute_on. rewrite Ho. simpl. eauto.
    + intros x Hx Hne. rewrite Hr. apply list_elem_of_In, filter_In.
      split; [by apply list_elem_of_In|]. apply negb_true_iff.
      by apply bool_decide_eq_false.
  - intros _ Hq Hcf. unfold get_order_by_id, execute_on. by rewrite Hn.
Qed.

Lemma deleted_order_is_gone_witness :
  exists st',
    delete_order None None sample_orders str_order_key = (st', true)
    /\ get_order_by_id None st' str_order_key = None.
Proof.
  eexists.
  assert (H : delete_order None None sample_orders str_order_key = (_, true))
    by (vm_compute; reflexivity).
  split; [exact H|].
  exact (proj1 (proj1 (deleted_order_is_gone None None sample_orders str_order_key
                         _ true H) eq_refl) None).
Defined.
